(** * The application store of bitmidi.com and its server-side caller

    A shallow embedding of [createStore] (the store: [dispatch], [update],
    [fetchStart], [fetchDone], [addError], [addPendingDispatch], [addSnippet],
    [addSearch]) and of the request handler of [src/server/router-render.js]
    ([onFetchEnd], [done]).

    JavaScript values are a first-order datatype, the closure state of
    [createStore] together with the browser objects it touches is a record
    [World], and every function of the store is a computation in a state and
    exception monad over [World]: a thrown exception keeps the mutations made
    before it, as in JavaScript.  The collaborators that the store receives
    or requires (the render function, the fetch observer, the routing object,
    the JSON and string builtins) are the fields of a record [Host].

    [dispatch], [update] and the collaborators call each other without
    bound (a render may dispatch, a dispatch calls [update], [update] calls
    the render function), so [dispatch] takes the depth to which these calls
    may nest and completes with [OutOfFuel] beyond it.  Every call that
    leaves the store (the debug lines, the routing object, [console.error],
    the assignment to [window.location.href], the response of the server) is
    recorded in the trace [effects] of the world, most recent first, together
    with the entries and exits of the render function and the calls of
    [update]. *)

From stdpp Require Import gmap strings list.
From Stdlib Require Import ZArith String Ascii Lia DecimalString.

Set Warnings "-register-all".
Open Scope string_scope.
Open Scope Z_scope.

(** ** JavaScript values *)

(** Numbers are the integers: the store only counts with them.  Objects are
    association lists from property names to values, in insertion order. *)
Inductive JsVal : Type :=
| VUndefined
| VNull
| VBool (b : bool)
| VNum (n : Z)
| VStr (s : string)
| VArr (items : list JsVal)
| VObj (fields : list (string * JsVal)).

(** The exceptions that can leave the store: the engine's [TypeError] and
    [ReferenceError], and [new Error(message)] thrown by the code. *)
Inductive Exn : Type :=
| TypeError
| ReferenceError
| JsError (message : string).

(** The completion of a computation: a normal return, a thrown exception, or
    the recursion bound of the model reached. *)
Inductive Res (A : Type) : Type :=
| Ret (a : A)
| Throw (e : Exn)
| OutOfFuel.

Arguments Ret {A} a.
Arguments Throw {A} e.
Arguments OutOfFuel {A}.

Fixpoint assoc (k : string) (fields : list (string * JsVal)) : option JsVal :=
  match fields with
  | [] => None
  | (k', v) :: rest => if String.eqb k k' then Some v else assoc k rest
  end.

(** [v.k] for one of the property names the store reads ([url], [name],
    [width], [height], [err], [doc], [snippet], [snippets], [search], [id],
    [q], [type], [data], [message], [code], [stack]): a [TypeError] on
    [null] and [undefined], the field of an object, and [undefined] on the
    other values, which have none of these properties. *)
Definition get_prop (v : JsVal) (k : string) : Res JsVal :=
  match v with
  | VUndefined | VNull => Throw TypeError
  | VObj fields => Ret (default VUndefined (assoc k fields))
  | _ => Ret VUndefined
  end.

(** ToBoolean. *)
Definition truthy (v : JsVal) : bool :=
  match v with
  | VUndefined | VNull => false
  | VBool b => b
  | VNum n => negb (n =? 0)
  | VStr s => negb (String.eqb s EmptyString)
  | VArr _ | VObj _ => true
  end.

(** [a === b].  Primitive values are compared by value; an object or array
    is identical only to itself, and two object values of the model stand
    for two allocations. *)
Definition strict_eq (a b : JsVal) : bool :=
  match a, b with
  | VUndefined, VUndefined => true
  | VNull, VNull => true
  | VBool x, VBool y => Bool.eqb x y
  | VNum x, VNum y => x =? y
  | VStr x, VStr y => String.eqb x y
  | _, _ => false
  end.

(** [v == null]. *)
Definition nullish (v : JsVal) : bool :=
  match v with
  | VUndefined | VNull => true
  | _ => false
  end.

(** ** The store object *)

Record App : Type := mkApp {
  title : JsVal;
  width : JsVal;
  height : JsVal;
  fetchCount : Z
}.

(** An entry of [store.errors]: [{ message, code }]. *)
Record ErrorRec : Type := mkErrorRec {
  err_message : JsVal;
  err_code : JsVal
}.

Record Store : Type := mkStore {
  location : JsVal;
  app : App;
  fatalError : JsVal;
  errors : list ErrorRec;
  userName : JsVal;
  snippets : gmap string JsVal;
  searches : gmap string JsVal;
  topSnippetIds : JsVal;
  doc : JsVal;
  lastSearch : JsVal
}.

(** The object literal of [createStore]; [lastSearch] is not a property yet. *)
Definition initial_store : Store :=
  {| location := VObj [("name", VNull); ("params", VObj []); ("url", VNull);
                       ("query", VObj []); ("pathname", VNull)];
     app := {| title := VNull; width := VNum 0; height := VNum 0;
               fetchCount := 0 |};
     fatalError := VNull;
     errors := [];
     userName := VNull;
     snippets := ∅;
     searches := ∅;
     topSnippetIds := VNull;
     doc := VNull;
     lastSearch := VUndefined |}.

(** ** The world around the store *)

(** The calls of the API collaborator; each takes the dispatched data and a
    callback that dispatches the paired [_DONE] action. *)
Inductive Endpoint : Type :=
| DocGet
| SnippetAdd
| SnippetVote
| SnippetGet
| SnippetAll
| SnippetSearch.

(** What [process.nextTick] can be given: the handler's [done]. *)
Inductive Task : Type :=
| TDone.

(** The trace of the calls that leave the store, most recent first. *)
Inductive Event : Type :=
| EvDebug (verbose : bool) (type data : JsVal)
| EvDebugUpdate
| EvUpdateCall
| EvRenderBegin
| EvRenderEnd
| EvLocPush (url : JsVal)
| EvLocReplace (url : JsVal)
| EvLocBack
| EvGa (url : JsVal)
| EvObserver
| EvConsoleError (stack : JsVal)
| EvRedirect (url : string)
| EvCopy (data : JsVal)
| EvStorageSet (value : string)
| EvStorageDelete
| EvRespond (status : Z) (view : string) (page_title : JsVal).

(** [window]: the [pendingDispatch] slot of [localStorage]. *)
Record Window : Type := mkWindow {
  pendingDispatch : option string
}.

Record World : Type := mkWorld {
  store : Store;
  window : option Window;
  isRendering : bool;
  isUpdatePending : bool;
  inflight : list (Endpoint * JsVal);
  ticks : list Task;
  effects : list Event
}.

Definition with_store (f : Store -> Store) (w : World) : World :=
  {| store := f (store w); window := window w; isRendering := isRendering w;
     isUpdatePending := isUpdatePending w; inflight := inflight w;
     ticks := ticks w; effects := effects w |}.

Definition with_window (win : option Window) (w : World) : World :=
  {| store := store w; window := win; isRendering := isRendering w;
     isUpdatePending := isUpdatePending w; inflight := inflight w;
     ticks := ticks w; effects := effects w |}.

Definition with_isRendering (b : bool) (w : World) : World :=
  {| store := store w; window := window w; isRendering := b;
     isUpdatePending := isUpdatePending w; inflight := inflight w;
     ticks := ticks w; effects := effects w |}.

Definition with_isUpdatePending (b : bool) (w : World) : World :=
  {| store := store w; window := window w; isRendering := isRendering w;
     isUpdatePending := b; inflight := inflight w;
     ticks := ticks w; effects := effects w |}.

Definition with_inflight (l : list (Endpoint * JsVal)) (w : World) : World :=
  {| store := store w; window := window w; isRendering := isRendering w;
     isUpdatePending := isUpdatePending w; inflight := l;
     ticks := ticks w; effects := effects w |}.

Definition with_ticks (l : list Task) (w : World) : World :=
  {| store := store w; window := window w; isRendering := isRendering w;
     isUpdatePending := isUpdatePending w; inflight := inflight w;
     ticks := l; effects := effects w |}.

Definition log_event (e : Event) (w : World) : World :=
  {| store := store w; window := window w; isRendering := isRendering w;
     isUpdatePending := isUpdatePending w; inflight := inflight w;
     ticks := ticks w; effects := e :: effects w |}.

(** Field updates of the store object. *)
Definition set_app (f : App -> App) (s : Store) : Store :=
  {| location := location s; app := f (app s); fatalError := fatalError s;
     errors := errors s; userName := userName s; snippets := snippets s;
     searches := searches s; topSnippetIds := topSnippetIds s; doc := doc s;
     lastSearch := lastSearch s |}.

Definition set_location (v : JsVal) (s : Store) : Store :=
  {| location := v; app := app s; fatalError := fatalError s;
     errors := errors s; userName := userName s; snippets := snippets s;
     searches := searches s; topSnippetIds := topSnippetIds s; doc := doc s;
     lastSearch := lastSearch s |}.

Definition set_fatalError (v : JsVal) (s : Store) : Store :=
  {| location := location s; app := app s; fatalError := v;
     errors := errors s; userName := userName s; snippets := snippets s;
     searches := searches s; topSnippetIds := topSnippetIds s; doc := doc s;
     lastSearch := lastSearch s |}.

Definition set_errors (l : list ErrorRec) (s : Store) : Store :=
  {| location := location s; app := app s; fatalError := fatalError s;
     errors := l; userName := userName s; snippets := snippets s;
     searches := searches s; topSnippetIds := topSnippetIds s; doc := doc s;
     lastSearch := lastSearch s |}.

Definition set_snippets (m : gmap string JsVal) (s : Store) : Store :=
  {| location := location s; app := app s; fatalError := fatalError s;
     errors := errors s; userName := userName s; snippets := m;
     searches := searches s; topSnippetIds := topSnippetIds s; doc := doc s;
     lastSearch := lastSearch s |}.

Definition set_searches (m : gmap string JsVal) (s : Store) : Store :=
  {| location := location s; app := app s; fatalError := fatalError s;
     errors := errors s; userName := userName s; snippets := snippets s;
     searches := m; topSnippetIds := topSnippetIds s; doc := doc s;
     lastSearch := lastSearch s |}.

Definition set_topSnippetIds (v : JsVal) (s : Store) : Store :=
  {| location := location s; app := app s; fatalError := fatalError s;
     errors := errors s; userName := userName s; snippets := snippets s;
     searches := searches s; topSnippetIds := v; doc := doc s;
     lastSearch := lastSearch s |}.

Definition set_doc (v : JsVal) (s : Store) : Store :=
  {| location := location s; app := app s; fatalError := fatalError s;
     errors := errors s; userName := userName s; snippets := snippets s;
     searches := searches s; topSnippetIds := topSnippetIds s; doc := v;
     lastSearch := lastSearch s |}.

Definition set_lastSearch (v : JsVal) (s : Store) : Store :=
  {| location := location s; app := app s; fatalError := fatalError s;
     errors := errors s; userName := userName s; snippets := snippets s;
     searches := searches s; topSnippetIds := topSnippetIds s; doc := doc s;
     lastSearch := v |}.

Definition set_title (v : JsVal) (a : App) : App :=
  {| title := v; width := width a; height := height a;
     fetchCount := fetchCount a |}.

Definition set_width (v : JsVal) (a : App) : App :=
  {| title := title a; width := v; height := height a;
     fetchCount := fetchCount a |}.

Definition set_height (v : JsVal) (a : App) : App :=
  {| title := title a; width := width a; height := v;
     fetchCount := fetchCount a |}.

Definition set_fetchCount (n : Z) (a : App) : App :=
  {| title := title a; width := width a; height := height a;
     fetchCount := n |}.

(** ** The monad of the store's functions *)

Definition M (A : Type) : Type := World -> Res A * World.

Definition ret {A : Type} (a : A) : M A := fun w => (Ret a, w).

Definition throw {A : Type} (e : Exn) : M A := fun w => (Throw e, w).

Definition bind {A B : Type} (m : M A) (k : A -> M B) : M B :=
  fun w =>
    match m w with
    | (Ret a, w') => k a w'
    | (Throw e, w') => (Throw e, w')
    | (OutOfFuel, w') => (OutOfFuel, w')
    end.

Notation "'let*' x ':=' m 'in' k" := (bind m (fun x => k))
  (at level 10, x pattern, m at level 100, k at level 200).
Notation "m ';;' k" := (bind m (fun _ => k))
  (at level 100, k at level 200, right associativity).

(** A pure step that may throw. *)
Definition lift {A : Type} (r : Res A) : M A := fun w => (r, w).

Definition read {A : Type} (f : World -> A) : M A := fun w => (Ret (f w), w).

Definition modify (f : World -> World) : M unit := fun w => (Ret tt, f w).

Definition emit (e : Event) : M unit := modify (log_event e).

Definition modify_store (f : Store -> Store) : M unit := modify (with_store f).

(** An access to the global [window]: a [ReferenceError] where there is
    none, as on the server. *)
Definition get_window : M Window :=
  fun w =>
    match window w with
    | Some win => (Ret win, w)
    | None => (Throw ReferenceError, w)
    end.

(** ** The collaborators *)

(** What a collaborator that is handed [dispatch] does when it is called:
    it dispatches actions, each after reading the store, schedules tasks
    with [process.nextTick], returns or throws. *)
Inductive Callback : Type :=
| CDone
| CDispatch (type data : JsVal) (next : Store -> Callback)
| CNextTick (t : Task) (next : Callback)
| CThrow (e : Exn).

(** The arguments of [createStore], the modules it requires and the builtins
    it calls.  [loc_push], [loc_replace] and [loc_back] give the location, if
    any, that the routing object reports through its callback before the call
    returns; [JSON_parse] is [None] where [JSON.parse] throws. *)
Record Host : Type := mkHost {
  config_name : string;
  config_isBrowser : bool;
  JSON_stringify : JsVal -> string;
  JSON_parse : string -> option JsVal;
  to_string : JsVal -> string;
  to_property_key : JsVal -> string;
  querystring_encode : JsVal -> string;
  error_stack : string -> JsVal;
  loc_push : JsVal -> option JsVal;
  loc_replace : JsVal -> option JsVal;
  loc_back : option JsVal;
  render : Store -> Callback;
  onFetchDone : option (Store -> Callback)
}.

(** String conversion of an operand of [+] or of a template literal. *)
Definition to_str (host : Host) (v : JsVal) : string :=
  match v with
  | VStr s => s
  | _ => to_string host v
  end.

(** [new Error(message)]. *)
Definition new_Error (host : Host) (message : string) : JsVal :=
  VObj [("message", VStr message); ("stack", error_stack host message)].

(** ** Action types *)

Inductive Tag : Type :=
| LOCATION_PUSH | LOCATION_REPLACE | LOCATION_BACK | LOCATION_CHANGED
| APP_TITLE | APP_RESIZE
| API_DOC | API_DOC_DONE
| API_SNIPPET_ADD | API_SNIPPET_ADD_DONE
| API_SNIPPET_VOTE | API_SNIPPET_VOTE_DONE
| API_SNIPPET_GET | API_SNIPPET_GET_DONE
| API_SNIPPET_ALL | API_SNIPPET_ALL_DONE
| API_SNIPPET_SEARCH | API_SNIPPET_SEARCH_DONE
| SEARCH_INPUT
| CLIPBOARD_COPY
| RUN_PENDING_DISPATCH.

Definition tag_name (t : Tag) : string :=
  match t with
  | LOCATION_PUSH => "LOCATION_PUSH"
  | LOCATION_REPLACE => "LOCATION_REPLACE"
  | LOCATION_BACK => "LOCATION_BACK"
  | LOCATION_CHANGED => "LOCATION_CHANGED"
  | APP_TITLE => "APP_TITLE"
  | APP_RESIZE => "APP_RESIZE"
  | API_DOC => "API_DOC"
  | API_DOC_DONE => "API_DOC_DONE"
  | API_SNIPPET_ADD => "API_SNIPPET_ADD"
  | API_SNIPPET_ADD_DONE => "API_SNIPPET_ADD_DONE"
  | API_SNIPPET_VOTE => "API_SNIPPET_VOTE"
  | API_SNIPPET_VOTE_DONE => "API_SNIPPET_VOTE_DONE"
  | API_SNIPPET_GET => "API_SNIPPET_GET"
  | API_SNIPPET_GET_DONE => "API_SNIPPET_GET_DONE"
  | API_SNIPPET_ALL => "API_SNIPPET_ALL"
  | API_SNIPPET_ALL_DONE => "API_SNIPPET_ALL_DONE"
  | API_SNIPPET_SEARCH => "API_SNIPPET_SEARCH"
  | API_SNIPPET_SEARCH_DONE => "API_SNIPPET_SEARCH_DONE"
  | SEARCH_INPUT => "SEARCH_INPUT"
  | CLIPBOARD_COPY => "CLIPBOARD_COPY"
  | RUN_PENDING_DISPATCH => "RUN_PENDING_DISPATCH"
  end.

(** The [case] labels of the [switch], in order. *)
Definition all_tags : list Tag :=
  [LOCATION_PUSH; LOCATION_REPLACE; LOCATION_BACK; LOCATION_CHANGED;
   APP_TITLE; APP_RESIZE; API_DOC; API_DOC_DONE;
   API_SNIPPET_ADD; API_SNIPPET_ADD_DONE;
   API_SNIPPET_VOTE; API_SNIPPET_VOTE_DONE;
   API_SNIPPET_GET; API_SNIPPET_GET_DONE;
   API_SNIPPET_ALL; API_SNIPPET_ALL_DONE;
   API_SNIPPET_SEARCH; API_SNIPPET_SEARCH_DONE;
   SEARCH_INPUT; CLIPBOARD_COPY; RUN_PENDING_DISPATCH].

(** The [case] that [switch (type)] selects: the labels are compared with
    [===], so only a string can match; [None] is the [default] clause. *)
Definition classify (type : JsVal) : option Tag :=
  match type with
  | VStr s => List.find (fun t => String.eqb s (tag_name t)) all_tags
  | _ => None
  end.

Definition T (t : Tag) : JsVal := VStr (tag_name t).

(** The action that the callback of an API call dispatches, and the
    property under which it passes the result. *)
Definition done_tag (ep : Endpoint) : Tag :=
  match ep with
  | DocGet => API_DOC_DONE
  | SnippetAdd => API_SNIPPET_ADD_DONE
  | SnippetVote => API_SNIPPET_VOTE_DONE
  | SnippetGet => API_SNIPPET_GET_DONE
  | SnippetAll => API_SNIPPET_ALL_DONE
  | SnippetSearch => API_SNIPPET_SEARCH_DONE
  end.

Definition result_field (ep : Endpoint) : string :=
  match ep with
  | DocGet => "doc"
  | SnippetAdd => "result"
  | SnippetVote => "snippet"
  | SnippetGet => "snippet"
  | SnippetAll => "snippets"
  | SnippetSearch => "search"
  end.

Definition dquote : string := String "034"%char EmptyString.

Definition unrecognized (host : Host) (type : JsVal) : Exn :=
  JsError ("Unrecognized dispatch type " ++ dquote ++ to_str host type ++ dquote).

(** [isRendering = true; render()] and [isRendering = false] of [update]. *)
Definition begin_render (w : World) : World :=
  log_event EvRenderBegin (with_isRendering true w).

Definition end_render (w : World) : World :=
  log_event EvRenderEnd (with_isRendering false w).

(** [window.localStorage.pendingDispatch = value] and
    [delete window.localStorage.pendingDispatch]. *)
Definition save_pending (value : string) (w : World) : World :=
  log_event (EvStorageSet value)
    (with_window (Some {| pendingDispatch := Some value |}) w).

Definition clear_pending (w : World) : World :=
  log_event EvStorageDelete
    (with_window (Some {| pendingDispatch := None |}) w).

(** The object literal [{ type, data }]. *)
Definition pending_action (type data : JsVal) : JsVal :=
  VObj [("type", type); ("data", data)].

Definition login_message : string :=
  "Last step! Log in to get credit for your contribution.".

(** ** The functions of [createStore] *)

Section StoreFunctions.

Variable host : Host.

(** [dispatch], as the functions below and the collaborators call it. *)
Variable dispatch_rec : JsVal -> JsVal -> M unit.

Fixpoint run_callback (c : Callback) : M unit :=
  match c with
  | CDone => ret tt
  | CDispatch type data next =>
      dispatch_rec type data ;;
      fun w => run_callback (next (store w)) w
  | CNextTick t next =>
      modify (fun w => with_ticks (ticks w ++ [t]) w) ;;
      run_callback next
  | CThrow e => throw e
  end.

(** [update]; [fuel] bounds the trailing calls [update()] makes to
    itself.  The trace records every call. *)
Fixpoint update (fuel : nat) : M unit :=
  emit EvUpdateCall ;;
  let* rendering := read isRendering in
  if rendering : bool then modify (with_isUpdatePending true)
  else
    match fuel with
    | O => lift OutOfFuel
    | S fuel' =>
        emit EvDebugUpdate ;;
        modify begin_render ;;
        (let* st := read store in run_callback (render host st)) ;;
        modify end_render ;;
        let* pending := read isUpdatePending in
        if pending : bool
        then modify (with_isUpdatePending false) ;; update fuel'
        else ret tt
    end.

Variable fuel : nat.

Definition addPendingDispatch (type data : JsVal) : M unit :=
  let* _ := get_window in
  let value := JSON_stringify host (pending_action type data) in
  modify (save_pending value).

Definition fetchStart : M unit :=
  modify_store (set_app (fun a => set_fetchCount (fetchCount a + 1) a)).

Definition fetchDone : M unit :=
  modify_store (set_app (fun a => set_fetchCount (fetchCount a - 1) a)) ;;
  match onFetchDone host with
  | Some observer =>
      emit EvObserver ;;
      let* st := read store in run_callback (observer st)
  | None => ret tt
  end.

Definition addError (err : JsVal) : M unit :=
  let* message := lift (get_prop err "message") in
  let* code := lift (get_prop err "code") in
  let* stack := lift (get_prop err "stack") in
  let code := match code with VUndefined => VNull | _ => code end in
  modify_store (fun s =>
    set_errors (errors s ++ [{| err_message := message; err_code := code |}]) s) ;;
  emit (EvConsoleError stack) ;;
  update fuel.

Definition addSnippet (snippet : JsVal) : M unit :=
  let* id := lift (get_prop snippet "id") in
  modify_store (fun s =>
    set_snippets (<[to_property_key host id := snippet]> (snippets s)) s).

Definition addSearch (search : JsVal) : M unit :=
  let* q := lift (get_prop search "q") in
  modify_store (fun s =>
    set_searches (<[to_property_key host q := search]> (searches s)) s).

(** [items.map(f)], for its effects. *)
Fixpoint for_each (f : JsVal -> M unit) (items : list JsVal) : M unit :=
  match items with
  | [] => ret tt
  | x :: rest => f x ;; for_each f rest
  end.

(** [items.map(snippet => snippet.id)]. *)
Fixpoint map_ids (items : list JsVal) : Res (list JsVal) :=
  match items with
  | [] => Ret []
  | x :: rest =>
      match get_prop x "id" with
      | Ret id =>
          match map_ids rest with
          | Ret ids => Ret (id :: ids)
          | Throw e => Throw e
          | OutOfFuel => OutOfFuel
          end
      | Throw e => Throw e
      | OutOfFuel => OutOfFuel
      end
  end.

(** Modelled from the spec: the routing object ([./lib/location], not among
    the sources) exposes [push], [replace] and [back] and reports a location
    through the callback it was constructed with,
    [location => dispatch('LOCATION_CHANGED', location)].  Which location it
    reports before the call returns, if any, is the host's. *)
Definition notify_location (reported : option JsVal) : M unit :=
  match reported with
  | Some l => dispatch_rec (T LOCATION_CHANGED) l
  | None => ret tt
  end.

Definition call_loc_push (url : JsVal) : M unit :=
  emit (EvLocPush url) ;; notify_location (loc_push host url).

Definition call_loc_replace (url : JsVal) : M unit :=
  emit (EvLocReplace url) ;; notify_location (loc_replace host url).

Definition call_loc_back : M unit :=
  emit EvLocBack ;; notify_location (loc_back host).

(** Modelled from the spec: the API collaborator ([./api], not among the
    sources) has one operation per [Endpoint], takes [(params, callback)] and
    calls back asynchronously.  A call leaves the request outstanding;
    [api_answer] below is its callback. *)
Definition call_api (ep : Endpoint) (data : JsVal) : M unit :=
  modify (fun w => with_inflight (inflight w ++ [(ep, data)]) w).

(** The body shared by the [_DONE] cases: [fetchDone()], the
    destructuring of [data], [if (err) return addError(err)]. *)
Definition done_case (data : JsVal) (field : string)
    (on_success : JsVal -> M unit) : M unit :=
  fetchDone ;;
  let* err := lift (get_prop data "err") in
  let* result := lift (get_prop data field) in
  if truthy err then addError err
  else on_success result.

Definition dispatch_case (tag : Tag) (type data : JsVal) : M unit :=
  match tag with
  | LOCATION_PUSH =>
      let* loc := read (fun w => location (store w)) in
      let* current := lift (get_prop loc "url") in
      if negb (strict_eq data current) then call_loc_push data else ret tt
  | LOCATION_REPLACE =>
      let* loc := read (fun w => location (store w)) in
      let* current := lift (get_prop loc "url") in
      if negb (strict_eq data current) then call_loc_replace data else ret tt
  | LOCATION_BACK => call_loc_back
  | LOCATION_CHANGED =>
      modify_store (set_location data) ;;
      modify_store (set_fatalError VNull) ;;
      (if config_isBrowser host
       then
         let* _ := get_window in
         let* loc := read (fun w => location (store w)) in
         let* url := lift (get_prop loc "url") in
         emit (EvGa url)
       else ret tt) ;;
      update fuel
  | APP_TITLE =>
      let new_title :=
        if truthy data
        then VStr (to_str host data ++ " – " ++ config_name host)
        else VStr (config_name host) in
      modify_store (set_app (set_title new_title)) ;;
      update fuel
  | APP_RESIZE =>
      let* wd := lift (get_prop data "width") in
      modify_store (set_app (set_width wd)) ;;
      let* ht := lift (get_prop data "height") in
      modify_store (set_app (set_height ht)) ;;
      update fuel
  | API_DOC =>
      fetchStart ;; call_api DocGet data ;; update fuel
  | API_DOC_DONE =>
      done_case data "doc" (fun doc =>
        modify_store (set_doc doc) ;; update fuel)
  | API_SNIPPET_ADD =>
      fetchStart ;;
      let* user := read (fun w => userName (store w)) in
      if nullish user
      then
        addPendingDispatch type data ;;
        addError (new_Error host login_message) ;;
        let* _ := get_window in
        emit (EvRedirect "/auth/twitter")
      else
        call_api SnippetAdd data ;; update fuel
  | API_SNIPPET_ADD_DONE =>
      fetchDone ;;
      let* err := lift (get_prop data "err") in
      if truthy err then addError err
      else dispatch_rec (T LOCATION_PUSH) (VStr "/") ;; update fuel
  | API_SNIPPET_VOTE =>
      fetchStart ;; call_api SnippetVote data ;; update fuel
  | API_SNIPPET_VOTE_DONE =>
      done_case data "snippet" (fun snippet =>
        addSnippet snippet ;; update fuel)
  | API_SNIPPET_GET =>
      fetchStart ;; call_api SnippetGet data ;; update fuel
  | API_SNIPPET_GET_DONE =>
      done_case data "snippet" (fun snippet =>
        addSnippet snippet ;; update fuel)
  | API_SNIPPET_ALL =>
      fetchStart ;; call_api SnippetAll data ;; update fuel
  | API_SNIPPET_ALL_DONE =>
      done_case data "snippets" (fun snippets =>
        match snippets with
        | VArr items =>
            for_each addSnippet items ;;
            let* ids := lift (map_ids items) in
            modify_store (set_topSnippetIds (VArr ids)) ;;
            update fuel
        | _ => throw TypeError
        end)
  | API_SNIPPET_SEARCH =>
      fetchStart ;; call_api SnippetSearch data ;; update fuel
  | API_SNIPPET_SEARCH_DONE =>
      done_case data "search" (fun search =>
        addSearch search ;; update fuel)
  | SEARCH_INPUT =>
      modify_store (set_lastSearch data) ;;
      if strict_eq data (VStr EmptyString)
      then dispatch_rec (T LOCATION_BACK) VUndefined
      else
        let url :=
          VStr ("/search?" ++ querystring_encode host (VObj [("q", data)])) in
        let* loc := read (fun w => location (store w)) in
        let* name := lift (get_prop loc "name") in
        dispatch_rec
          (if strict_eq name (VStr "search")
           then T LOCATION_REPLACE else T LOCATION_PUSH)
          url
  | CLIPBOARD_COPY => emit (EvCopy data)
  | RUN_PENDING_DISPATCH =>
      let* win := get_window in
      match pendingDispatch win with
      | None => ret tt
      | Some value =>
          let event := default VUndefined (JSON_parse host value) in
          modify clear_pending ;;
          let* event_type := lift (get_prop event "type") in
          let* event_data := lift (get_prop event "data") in
          dispatch_rec event_type event_data ;;
          update fuel
      end
  end.

(** The body of [dispatch]: the debug line, then the [switch]. *)
Definition dispatch_body (type data : JsVal) : M unit :=
  emit (EvDebug (strict_eq type (T APP_RESIZE)) type data) ;;
  match classify type with
  | Some tag => dispatch_case tag type data
  | None => throw (unrecognized host type)
  end.

End StoreFunctions.

(** [dispatch(type, data)].  The calls that [dispatch] makes to itself,
    directly or through [update] and the collaborators, nest at most
    [fuel] deep. *)
Fixpoint dispatch (host : Host) (fuel : nat) (type data : JsVal) : M unit :=
  match fuel with
  | O => lift OutOfFuel
  | S fuel' => dispatch_body host (dispatch host fuel') fuel' type data
  end.

(** [update()] of a store whose [dispatch] may nest [fuel] deep. *)
Definition store_update (host : Host) (fuel : nat) : M unit :=
  update host (dispatch host fuel) fuel.

(** The state right after [createStore] returns. *)
Definition createStore (win : option Window) : World :=
  {| store := initial_store; window := win; isRendering := false;
     isUpdatePending := false; inflight := []; ticks := []; effects := [] |}.

(** The API collaborator answers the [i]-th outstanding call with
    [(err, result)]: its callback dispatches the paired [_DONE] action. *)
Definition api_answer (host : Host) (fuel : nat) (i : nat)
    (err result : JsVal) : M unit :=
  let* calls := read inflight in
  match calls !! i with
  | Some (ep, _) =>
      modify (with_inflight (take i calls ++ drop (S i) calls)) ;;
      dispatch host fuel (T (done_tag ep))
        (VObj [("err", err); (result_field ep, result)])
  | None => ret tt
  end.

(** ** The request handler of [router-render.js] *)

(** [onFetchEnd]. *)
Definition onFetchEnd (st : Store) : Callback :=
  if fetchCount (app st) =? 0 then CNextTick TDone CDone else CDone.

(** [done]: the status, then [res.render('index', ...)]. *)
Definition done : M unit :=
  let* loc := read (fun w => location (store w)) in
  let* name := lift (get_prop loc "name") in
  let status := if strict_eq name (VStr "not-found") then 404 else 200 in
  let* page_title := read (fun w => title (app (store w))) in
  emit (EvRespond status "index" page_title).

(** The store of a request: [createStore(update, onFetchEnd)], where
    [update] renders the application. *)
Definition router_host (host : Host) : Host :=
  {| config_name := config_name host;
     config_isBrowser := config_isBrowser host;
     JSON_stringify := JSON_stringify host;
     JSON_parse := JSON_parse host;
     to_string := to_string host;
     to_property_key := to_property_key host;
     querystring_encode := querystring_encode host;
     error_stack := error_stack host;
     loc_push := loc_push host;
     loc_replace := loc_replace host;
     loc_back := loc_back host;
     render := render host;
     onFetchDone := Some onFetchEnd |}.

(** The handler of [router.get('*', ...)] up to its return. *)
Definition router_get (host : Host) (fuel : nat) (req_url : JsVal)
    : Res unit * World :=
  (dispatch (router_host host) fuel (T LOCATION_REPLACE) req_url ;;
   let* n := read (fun w => fetchCount (app (store w))) in
   if n =? 0 then done else ret tt) (createStore None).

(** The next tick: the first scheduled task runs. *)
Definition run_tick : M unit :=
  let* queue := read ticks in
  match queue with
  | [] => ret tt
  | TDone :: rest => modify (with_ticks rest) ;; done
  end.

(** ** A JSON codec for the examples

    [JSON.stringify] and [JSON.parse] on the values of the model: integers,
    strings with the escapes of the quote and the backslash, arrays and
    objects.  The store is verified against any codec (the fields
    [JSON_stringify] and [JSON_parse] of its host); this one instantiates
    them where a statement is run on a concrete action. *)
Module Json.

Definition quote_char : ascii := "034"%char.
Definition backslash : ascii := "092"%char.

Fixpoint escape (cs : list ascii) : list ascii :=
  match cs with
  | [] => []
  | c :: rest =>
      if Ascii.eqb c quote_char || Ascii.eqb c backslash
      then backslash :: c :: escape rest
      else c :: escape rest
  end.

Definition quoted (s : string) : string :=
  string_of_list_ascii
    (quote_char :: escape (list_ascii_of_string s) ++ [quote_char]).

Definition number (n : Z) : string :=
  DecimalString.NilZero.string_of_int (Z.to_int n).

(** A property whose value is [undefined] is left out of an object and
    printed as [null] in an array. *)
Fixpoint stringify (v : JsVal) : string :=
  match v with
  | VUndefined | VNull => "null"
  | VBool true => "true"
  | VBool false => "false"
  | VNum n => number n
  | VStr s => quoted s
  | VArr items =>
      "[" ++ String.concat ","
               ((fix go (l : list JsVal) : list string :=
                   match l with
                   | [] => []
                   | x :: rest => stringify x :: go rest
                   end) items) ++ "]"
  | VObj fields =>
      "{" ++ String.concat ","
               ((fix go (l : list (string * JsVal)) : list string :=
                   match l with
                   | [] => []
                   | (_, VUndefined) :: rest => go rest
                   | (k, x) :: rest =>
                       (quoted k ++ ":" ++ stringify x) :: go rest
                   end) fields) ++ "}"
  end.

Definition is_space (c : ascii) : bool :=
  Ascii.eqb c " "%char || Ascii.eqb c "009"%char
  || Ascii.eqb c "010"%char || Ascii.eqb c "013"%char.

Definition is_digit (c : ascii) : bool :=
  (48 <=? nat_of_ascii c)%nat && (nat_of_ascii c <=? 57)%nat.

Fixpoint skip_space (cs : list ascii) : list ascii :=
  match cs with
  | c :: rest => if is_space c then skip_space rest else cs
  | [] => []
  end.

Fixpoint expect (word cs : list ascii) : option (list ascii) :=
  match word, cs with
  | [], _ => Some cs
  | a :: word', c :: cs' => if Ascii.eqb a c then expect word' cs' else None
  | _ :: _, [] => None
  end.

(** The characters after an opening quote, up to the closing one. *)
Fixpoint string_body (cs acc : list ascii) : option (string * list ascii) :=
  match cs with
  | [] => None
  | c :: rest =>
      if Ascii.eqb c quote_char
      then Some (string_of_list_ascii (rev acc), rest)
      else if Ascii.eqb c backslash
      then
        match rest with
        | e :: rest' =>
            if Ascii.eqb e quote_char || Ascii.eqb e backslash
            then string_body rest' (e :: acc)
            else None
        | [] => None
        end
      else string_body rest (c :: acc)
  end.

Fixpoint digits (cs : list ascii) : list ascii * list ascii :=
  match cs with
  | c :: rest =>
      if is_digit c
      then let (ds, tail) := digits rest in (c :: ds, tail)
      else ([], cs)
  | [] => ([], [])
  end.

Definition integer (negative : bool) (cs : list ascii)
    : option (JsVal * list ascii) :=
  match digits cs with
  | ([], _) => None
  | (ds, tail) =>
      match DecimalString.NilZero.int_of_string (string_of_list_ascii ds) with
      | Some i =>
          let n := Z.of_int i in
          Some (VNum (if negative then - n else n), tail)
      | None => None
      end
  end.

Fixpoint value (fuel : nat) (cs : list ascii) : option (JsVal * list ascii) :=
  match fuel with
  | O => None
  | S fuel' =>
      match skip_space cs with
      | [] => None
      | c :: rest =>
          if Ascii.eqb c "n"%char
          then option_map (pair VNull) (expect (list_ascii_of_string "ull") rest)
          else if Ascii.eqb c "t"%char
          then option_map (pair (VBool true))
                 (expect (list_ascii_of_string "rue") rest)
          else if Ascii.eqb c "f"%char
          then option_map (pair (VBool false))
                 (expect (list_ascii_of_string "alse") rest)
          else if Ascii.eqb c quote_char
          then option_map (fun p => (VStr (fst p), snd p)) (string_body rest [])
          else if Ascii.eqb c "-"%char then integer true rest
          else if is_digit c then integer false (c :: rest)
          else if Ascii.eqb c "["%char
          then
            match skip_space rest with
            | d :: rest' =>
                if Ascii.eqb d "]"%char then Some (VArr [], rest')
                else option_map (fun p => (VArr (fst p), snd p))
                       (elements fuel' (d :: rest'))
            | [] => None
            end
          else if Ascii.eqb c "{"%char
          then
            match skip_space rest with
            | d :: rest' =>
                if Ascii.eqb d "}"%char then Some (VObj [], rest')
                else option_map (fun p => (VObj (fst p), snd p))
                       (members fuel' (d :: rest'))
            | [] => None
            end
          else None
      end
  end
with elements (fuel : nat) (cs : list ascii)
    : option (list JsVal * list ascii) :=
  match fuel with
  | O => None
  | S fuel' =>
      match value fuel' cs with
      | Some (x, tail) =>
          match skip_space tail with
          | c :: rest =>
              if Ascii.eqb c "]"%char then Some ([x], rest)
              else if Ascii.eqb c ","%char
              then option_map (fun p => (x :: fst p, snd p))
                     (elements fuel' rest)
              else None
          | [] => None
          end
      | None => None
      end
  end
with members (fuel : nat) (cs : list ascii)
    : option (list (string * JsVal) * list ascii) :=
  match fuel with
  | O => None
  | S fuel' =>
      match skip_space cs with
      | q :: rest =>
          if Ascii.eqb q quote_char
          then
            match string_body rest [] with
            | Some (k, tail) =>
                match skip_space tail with
                | c :: tail' =>
                    if Ascii.eqb c ":"%char
                    then
                      match value fuel' tail' with
                      | Some (x, tail'') =>
                          match skip_space tail'' with
                          | e :: rest' =>
                              if Ascii.eqb e "}"%char
                              then Some ([(k, x)], rest')
                              else if Ascii.eqb e ","%char
                              then option_map
                                     (fun p => ((k, x) :: fst p, snd p))
                                     (members fuel' rest')
                              else None
                          | [] => None
                          end
                      | None => None
                      end
                    else None
                | [] => None
                end
            | None => None
            end
          else None
      | [] => None
      end
  end.

(** [None] where [JSON.parse] throws a [SyntaxError]. *)
Definition parse (s : string) : option JsVal :=
  let cs := list_ascii_of_string s in
  match value (2 * List.length cs + 2) cs with
  | Some (v, tail) =>
      match skip_space tail with
      | [] => Some v
      | _ :: _ => None
      end
  | None => None
  end.

End Json.

(** ** A host for the examples *)

(** The routes of the examples: the home page, and [not-found]. *)
Definition sample_route (url : JsVal) : option JsVal :=
  Some (VObj [("name", if strict_eq url (VStr "/") then VStr "home"
                       else VStr "not-found");
              ("params", VObj []); ("url", url); ("query", VObj []);
              ("pathname", url)]).

(** A browser whose render dispatches nothing and that registers no
    observer. *)
Definition sample_host : Host :=
  {| config_name := "BitMidi";
     config_isBrowser := true;
     JSON_stringify := Json.stringify;
     JSON_parse := Json.parse;
     to_string := Json.stringify;
     to_property_key := fun v => match v with VStr s => s | _ => Json.stringify v end;
     querystring_encode := fun v =>
       match get_prop v "q" with
       | Ret (VStr s) => "q=" ++ s
       | _ => "q="
       end;
     error_stack := fun message => VStr ("Error: " ++ message);
     loc_push := sample_route;
     loc_replace := sample_route;
     loc_back := None;
     render := fun _ => CDone;
     onFetchDone := None |}.

(** The same on the server: no [window], and [config.isBrowser] is false. *)
Definition sample_server : Host :=
  {| config_name := "BitMidi";
     config_isBrowser := false;
     JSON_stringify := Json.stringify;
     JSON_parse := Json.parse;
     to_string := Json.stringify;
     to_property_key := to_property_key sample_host;
     querystring_encode := querystring_encode sample_host;
     error_stack := error_stack sample_host;
     loc_push := sample_route;
     loc_replace := sample_route;
     loc_back := None;
     render := fun _ => CDone;
     onFetchDone := None |}.

Definition with_render (r : Store -> Callback) (host : Host) : Host :=
  {| config_name := config_name host;
     config_isBrowser := config_isBrowser host;
     JSON_stringify := JSON_stringify host;
     JSON_parse := JSON_parse host;
     to_string := to_string host;
     to_property_key := to_property_key host;
     querystring_encode := querystring_encode host;
     error_stack := error_stack host;
     loc_push := loc_push host;
     loc_replace := loc_replace host;
     loc_back := loc_back host;
     render := r;
     onFetchDone := onFetchDone host |}.

Definition with_onFetchDone (o : option (Store -> Callback)) (host : Host) : Host :=
  {| config_name := config_name host;
     config_isBrowser := config_isBrowser host;
     JSON_stringify := JSON_stringify host;
     JSON_parse := JSON_parse host;
     to_string := to_string host;
     to_property_key := to_property_key host;
     querystring_encode := querystring_encode host;
     error_stack := error_stack host;
     loc_push := loc_push host;
     loc_replace := loc_replace host;
     loc_back := loc_back host;
     render := render host;
     onFetchDone := o |}.

(** A browser window with an empty [localStorage]. *)
Definition empty_window : option Window := Some {| pendingDispatch := None |}.

(** ** Observations on the trace *)

Definition is_render_begin (e : Event) : bool :=
  match e with EvRenderBegin => true | _ => false end.

Definition is_update_call (e : Event) : bool :=
  match e with EvUpdateCall => true | _ => false end.

Definition is_storage_set (e : Event) : bool :=
  match e with EvStorageSet _ => true | _ => false end.

Definition is_observer_call (e : Event) : bool :=
  match e with EvObserver => true | _ => false end.

Definition is_respond (e : Event) : bool :=
  match e with EvRespond _ _ _ => true | _ => false end.

Definition count_events (p : Event -> bool) (w : World) : nat :=
  List.length (List.filter p (effects w)).

(** The number of times the render function has been entered, [update] has
    been called, and the pending action has been saved. *)
Definition renders (w : World) : nat := count_events is_render_begin w.
Definition update_calls (w : World) : nat := count_events is_update_call w.
Definition saves (w : World) : nat := count_events is_storage_set w.

(** Whether a render is running at the end of a trace: [Some true] inside
    the render function, [Some false] outside, and [None] if the trace
    enters the render function while one is running, or leaves it while
    none is. *)
Fixpoint render_state (trace : list Event) : option bool :=
  match trace with
  | [] => Some false
  | e :: older =>
      match render_state older with
      | Some running =>
          match e with
          | EvRenderBegin => if running then None else Some true
          | EvRenderEnd => if running then Some false else None
          | _ => Some running
          end
      | None => None
      end
  end.

(** The render function was never entered while it was running, and
    [isRendering] tells whether it is running now. *)
Definition well_nested (w : World) : Prop :=
  render_state (effects w) = Some (isRendering w).

(** The events of [emit] outside [update]. *)
Definition plain (e : Event) : bool :=
  match e with
  | EvUpdateCall | EvDebugUpdate | EvRenderBegin | EvRenderEnd
  | EvStorageSet _ | EvStorageDelete => false
  | _ => true
  end.

(** The [pendingDispatch] slot, empty where there is no [window]. *)
Definition pending_slot (w : World) : option string :=
  match window w with
  | Some win => pendingDispatch win
  | None => None
  end.

(** A callback that dispatches nothing and returns. *)
Fixpoint quiet (c : Callback) : bool :=
  match c with
  | CDone => true
  | CNextTick _ next => quiet next
  | CDispatch _ _ _ | CThrow _ => false
  end.

Fixpoint scheduled (c : Callback) : list Task :=
  match c with
  | CNextTick t next => t :: scheduled next
  | _ => []
  end.

(** The property of [v] under [k], where reading it does not throw. *)
Definition prop_of (v : JsVal) (k : string) : JsVal :=
  match v with
  | VObj fields => default VUndefined (assoc k fields)
  | _ => VUndefined
  end.

(** The record that [addError(err)] pushes. *)
Definition error_record (err : JsVal) : ErrorRec :=
  {| err_message := prop_of err "message";
     err_code := match prop_of err "code" with
                 | VUndefined => VNull
                 | _ => prop_of err "code"
                 end |}.

Definition push_error (r : ErrorRec) (s : Store) : Store :=
  set_errors (errors s ++ [r]) s.

Definition add_fetchCount (d : Z) (s : Store) : Store :=
  set_app (fun a => set_fetchCount (fetchCount a + d) a) s.

Definition is_done_tag (t : Tag) : bool :=
  match t with
  | API_DOC_DONE | API_SNIPPET_ADD_DONE | API_SNIPPET_VOTE_DONE
  | API_SNIPPET_GET_DONE | API_SNIPPET_ALL_DONE | API_SNIPPET_SEARCH_DONE => true
  | _ => false
  end.

Definition is_storage (e : Event) : bool :=
  match e with EvStorageSet _ | EvStorageDelete => true | _ => false end.

(** The state in which [update], called while no render runs, enters the
    render function. *)
Definition pass_start (w : World) : World :=
  begin_render (log_event EvDebugUpdate (log_event EvUpdateCall w)).

(** The part of [addError(err)] before its call of [update], for an [err]
    that is not [null] or [undefined]. *)
Definition record_error (err : JsVal) : M unit :=
  modify_store (push_error (error_record err)) ;;
  emit (EvConsoleError (prop_of err "stack")).

(** The API call that a start action makes. *)
Definition start_endpoint (t : Tag) : option Endpoint :=
  match t with
  | API_DOC => Some DocGet
  | API_SNIPPET_ADD => Some SnippetAdd
  | API_SNIPPET_VOTE => Some SnippetVote
  | API_SNIPPET_GET => Some SnippetGet
  | API_SNIPPET_ALL => Some SnippetAll
  | API_SNIPPET_SEARCH => Some SnippetSearch
  | _ => None
  end.

(** The call of the routing object that [LOCATION_PUSH] and
    [LOCATION_REPLACE] make, and the location it reports. *)
Definition loc_event (tag : Tag) (url : JsVal) : Event :=
  match tag with
  | LOCATION_REPLACE => EvLocReplace url
  | _ => EvLocPush url
  end.

Definition loc_answer (host : Host) (tag : Tag) (url : JsVal) : option JsVal :=
  match tag with
  | LOCATION_REPLACE => loc_replace host url
  | _ => loc_push host url
  end.

(** ** Relations between the states before and after a computation *)

(** [m] takes every state to one that is [R]-related to it, however it
    completes. *)
Definition sound (R : World -> World -> Prop) {A : Type} (m : M A) : Prop :=
  forall w, R w (snd (m w)).

(** What any computation of the store does to the render scheduler: it keeps
    the trace well nested, and while a render runs it leaves [isRendering]
    set, enters no render, and sets [isUpdatePending] exactly if it calls
    [update]. *)
Definition sched_step (w w' : World) : Prop :=
  (well_nested w -> well_nested w') /\
  (update_calls w <= update_calls w')%nat /\
  (isRendering w = true ->
   isRendering w' = true /\ renders w' = renders w /\
   isUpdatePending w' = isUpdatePending w || (update_calls w <? update_calls w')%nat).

(** What any computation of the store does to the pending-action slot: a
    [window] stays, and a slot that is empty stays empty unless the action
    is saved. *)
Definition bridge_step (w w' : World) : Prop :=
  (window w <> None -> window w' <> None) /\
  (saves w <= saves w')%nat /\
  (saves w' = saves w -> pending_slot w = None -> pending_slot w' = None).

(** What a computation does that leaves the fetches alone: the counter and
    the outstanding calls are as before. *)
Definition count_same (w w' : World) : Prop :=
  fetchCount (app (store w')) = fetchCount (app (store w)) /\
  inflight w' = inflight w.

Definition is_location_tag (t : Tag) : bool :=
  match t with
  | LOCATION_PUSH | LOCATION_REPLACE | LOCATION_BACK | LOCATION_CHANGED => true
  | _ => false
  end.

(** ** Concrete states and hosts of the examples *)

(** The browser after navigating to the home page. *)
Definition home_world : World :=
  snd (dispatch sample_host 3 (T LOCATION_PUSH) (VStr "/") (createStore empty_window)).

(** A render function that, on its first pass, dispatches three actions
    from inside the render; each of them calls [update]. *)
Definition coalescing_render (st : Store) : Callback :=
  match title (app st) with
  | VNull =>
      CDispatch (T APP_TITLE) (VStr "Home") (fun _ =>
      CDispatch (T APP_RESIZE)
        (VObj [("width", VNum 800); ("height", VNum 600)]) (fun _ =>
      CDispatch (T API_DOC) (VStr "about") (fun _ => CDone)))
  | _ => CDone
  end.

Definition coalescing_host : Host := with_render coalescing_render sample_host.

Definition first_pass : World :=
  snd (run_callback (dispatch coalescing_host 2)
         (coalescing_render (store (createStore empty_window)))
         (pass_start (createStore empty_window))).

(** The state in which [API_SNIPPET_ADD], dispatched without a user name,
    has its [addError] call [update]: the counter incremented, the action
    saved, the error pushed and printed. *)
Definition login_prompt (host : Host) (data : JsVal) (w : World) : World :=
  log_event (EvConsoleError (error_stack host login_message))
    (with_store
       (push_error {| err_message := VStr login_message; err_code := VNull |})
       (save_pending
          (JSON_stringify host (pending_action (T API_SNIPPET_ADD) data))
          (with_store (add_fetchCount 1)
             (log_event (EvDebug false (T API_SNIPPET_ADD) data) w)))).

(** A snippet to submit, and the answer of a failed [api.snippet.get]. *)
Definition new_snippet : JsVal := VObj [("body", VStr "x")].

Definition failed_get : JsVal :=
  VObj [("err", VObj [("message", VStr "Not found"); ("code", VStr "ENOTFOUND")]);
        ("snippet", VUndefined)].

(** The browser while one [API_SNIPPET_GET] is outstanding. *)
Definition fetching_world : World :=
  snd (dispatch sample_host 2 (T API_SNIPPET_GET) (VObj [("id", VStr "s1")])
         (createStore empty_window)).

(** The browser with a vote saved for after the login, and with a slot
    whose content is not JSON. *)
Definition saved_world : World :=
  snd (addPendingDispatch sample_host (T API_SNIPPET_VOTE)
         (VObj [("id", VStr "s1")]) (createStore empty_window)).

Definition corrupt_world : World :=
  with_window (Some {| pendingDispatch := Some "{" |}) (createStore None).

(** The server after the first dispatch of a request for an unknown page,
    and a store with two fetches outstanding. *)
Definition not_found_world : World :=
  snd (dispatch (router_host sample_server) 3 (T LOCATION_REPLACE)
         (VStr "/nope") (createStore None)).

Definition two_fetches : World :=
  with_store (add_fetchCount 2) (createStore None).

(** A server whose pages fetch a document: the render function dispatches
    [API_DOC] as long as there is neither a document nor a fetch. *)
Definition doc_render (st : Store) : Callback :=
  match doc st with
  | VNull =>
      if fetchCount (app st) =? 0
      then CDispatch (T API_DOC) (VStr "about") (fun _ => CDone)
      else CDone
  | _ => CDone
  end.

Definition doc_server : Host := with_render doc_render sample_server.

(** A request to that server: after the handler returns, after the API
    collaborator answers, and after the next tick. *)
Definition doc_requested : World := snd (router_get doc_server 4 (VStr "/")).

Definition doc_answered : World :=
  snd (api_answer (router_host doc_server) 4 0 VNull (VStr "text") doc_requested).

Definition doc_responded : World := snd (run_tick doc_answered).

(** ** The writes of the store

    The updates of [store] that the functions of [createStore] make, one
    constructor for each assignment in the source. *)
Inductive store_write : (Store -> Store) -> Prop :=
| write_location (v : JsVal) : store_write (set_location v)
| write_fatalError : store_write (set_fatalError VNull)
| write_title (v : JsVal) : store_write (set_app (set_title v))
| write_width (v : JsVal) : store_write (set_app (set_width v))
| write_height (v : JsVal) : store_write (set_app (set_height v))
| write_fetchStart :
    store_write (set_app (fun a => set_fetchCount (fetchCount a + 1) a))
| write_fetchDone :
    store_write (set_app (fun a => set_fetchCount (fetchCount a - 1) a))
| write_error (r : ErrorRec) :
    store_write (fun s => set_errors (errors s ++ [r]) s)
| write_snippet (k : string) (v : JsVal) :
    store_write (fun s => set_snippets (<[k := v]> (snippets s)) s)
| write_search (k : string) (v : JsVal) :
    store_write (fun s => set_searches (<[k := v]> (searches s)) s)
| write_topSnippetIds (ids : list JsVal) :
    store_write (set_topSnippetIds (VArr ids))
| write_doc (v : JsVal) : store_write (set_doc v)
| write_lastSearch (v : JsVal) : store_write (set_lastSearch v).

(** [store.errors] has only grown. *)
Definition errors_grow (w w' : World) : Prop :=
  exists new, errors (store w') = (errors (store w) ++ new)%list.

(** No key of [store.snippets] or [store.searches] is gone. *)
Definition keys_kept (w w' : World) : Prop :=
  dom (snippets (store w)) ⊆ dom (snippets (store w')) /\
  dom (searches (store w)) ⊆ dom (searches (store w')).

(** [store.userName] is as before, and [store.fatalError] is as before or
    [null]. *)
Definition identity_kept (w w' : World) : Prop :=
  userName (store w') = userName (store w) /\
  (fatalError (store w') = fatalError (store w) \/ fatalError (store w') = VNull).



Definition is_pageview (e : Event) : bool :=
  match e with EvGa _ => true | _ => false end.

(** A render function that dispatches a type the store does not know, and
    one that dispatches [APP_TITLE] on every pass. *)
Definition broken_render (st : Store) : Callback :=
  CDispatch (VStr "SNIPPET_DELETE") VNull (fun _ => CDone).
Definition broken_host : Host := with_render broken_render sample_host.

Definition restless_render (st : Store) : Callback :=
  CDispatch (T APP_TITLE) (VStr "Home") (fun _ => CDone).
Definition restless_host : Host := with_render restless_render sample_host.

(** A store of a user who is logged in. *)
Definition signed_in_store : Store :=
  {| location := location initial_store; app := app initial_store;
     fatalError := VNull; errors := []; userName := VStr "ada";
     snippets := ∅; searches := ∅; topSnippetIds := VNull; doc := VNull;
     lastSearch := VUndefined |}.

Definition signed_in_world : World :=
  with_store (fun _ => signed_in_store) (createStore empty_window).

Definition got_no_list : JsVal := VObj [("err", VNull)].

(** * Properties *)

(** ** The [switch] *)

Lemma classify_T (t : Tag) : classify (T t) = Some t.
Proof. destruct t; reflexivity. Qed.

Lemma classify_Some (type : JsVal) (t : Tag) :
  classify type = Some t -> type = T t.
Proof.
  destruct type; try discriminate. unfold classify. intros H.
  apply List.find_some in H as [_ H]. apply String.eqb_eq in H. now subst.
Qed.

Lemma classify_None (type : JsVal) :
  (forall t, type <> T t) -> classify type = None.
Proof.
  intros H. destruct (classify type) as [t |] eqn:E; [| reflexivity].
  apply classify_Some in E. now apply H in E.
Qed.

Lemma dispatch_S (host : Host) (fuel : nat) (type data : JsVal) :
  dispatch host (S fuel) type data =
  dispatch_body host (dispatch host fuel) fuel type data.
Proof. reflexivity. Qed.

(** A dispatch of one of the labels runs the debug line and then its case. *)
Lemma dispatch_tag (host : Host) (fuel : nat) (t : Tag) (data : JsVal) (w : World) :
  dispatch host (S fuel) (T t) data w =
  dispatch_case host (dispatch host fuel) fuel t (T t) data
    (log_event (EvDebug (strict_eq (T t) (T APP_RESIZE)) (T t) data) w).
Proof.
  rewrite dispatch_S. unfold dispatch_body. rewrite classify_T. reflexivity.
Qed.

Lemma strict_eq_str (v : JsVal) (s : string) :
  strict_eq v (VStr s) = true <-> v = VStr s.
Proof.
  destruct v; simpl; split; try discriminate; intros H.
  - apply String.eqb_eq in H. now subst.
  - inversion H. apply String.eqb_refl.
Qed.

Lemma truthy_get_prop (v : JsVal) (k : string) :
  truthy v = true -> get_prop v k = Ret (prop_of v k).
Proof. destruct v; simpl; try discriminate; reflexivity. Qed.

Lemma get_prop_total (v : JsVal) (k k' : string) (x : JsVal) :
  get_prop v k = Ret x -> get_prop v k' = Ret (prop_of v k').
Proof. destruct v; simpl; try discriminate; reflexivity. Qed.

(** ** Relations kept by every step of the store *)

Section Preservation.

Variable R : World -> World -> Prop.
Hypothesis R_refl : forall w, R w w.
Hypothesis R_trans : forall w1 w2 w3, R w1 w2 -> R w2 w3 -> R w1 w3.
Hypothesis R_store : forall f w, R w (with_store f w).
Hypothesis R_plain : forall e w, plain e = true -> R w (log_event e w).
Hypothesis R_inflight : forall l w, R w (with_inflight l w).
Hypothesis R_ticks : forall l w, R w (with_ticks l w).
Hypothesis R_save : forall v w, R w (save_pending v w).
Hypothesis R_clear : forall w, R w (clear_pending w).

Lemma sound_ret {A : Type} (a : A) : sound R (ret a).
Proof. intros w. apply R_refl. Qed.

Lemma sound_throw {A : Type} (e : Exn) : sound R (@throw A e).
Proof. intros w. apply R_refl. Qed.

Lemma sound_lift {A : Type} (r : Res A) : sound R (lift r).
Proof. intros w. apply R_refl. Qed.

Lemma sound_read {A : Type} (f : World -> A) : sound R (read f).
Proof. intros w. apply R_refl. Qed.

Lemma sound_get_window : sound R get_window.
Proof. intros w. unfold get_window. destruct (window w); apply R_refl. Qed.

Lemma sound_bind {A B : Type} (m : M A) (k : A -> M B) :
  sound R m -> (forall a, sound R (k a)) -> sound R (bind m k).
Proof.
  intros Hm Hk w. unfold bind. specialize (Hm w).
  destruct (m w) as [[a | e |] w']; simpl in *; auto.
  eapply R_trans; [exact Hm | apply Hk].
Qed.

Lemma sound_modify (f : World -> World) :
  (forall w, R w (f w)) -> sound R (modify f).
Proof. intros H w. apply H. Qed.

Lemma sound_modify_store (f : Store -> Store) : sound R (modify_store f).
Proof. intros w. apply R_store. Qed.

Lemma sound_emit (e : Event) : plain e = true -> sound R (emit e).
Proof. intros H w. now apply R_plain. Qed.

Variable host : Host.
Variable drec : JsVal -> JsVal -> M unit.
Hypothesis sound_drec : forall t d, sound R (drec t d).

Lemma sound_run_callback (c : Callback) : sound R (run_callback drec c).
Proof.
  induction c as [| t d next IH | t next IH | e]; simpl.
  - apply sound_ret.
  - apply sound_bind; [apply sound_drec |]. intros _ w. apply IH.
  - apply sound_bind; [apply sound_modify; intros; apply R_ticks | auto].
  - apply sound_throw.
Qed.

Variable fuel : nat.
Hypothesis sound_update : sound R (update host drec fuel).

Ltac sound_step :=
  lazymatch goal with
  | |- sound _ (bind _ _) => apply sound_bind; [| intros ?]
  | |- sound _ (ret _) => apply sound_ret
  | |- sound _ (throw _) => apply sound_throw
  | |- sound _ (lift _) => apply sound_lift
  | |- sound _ (read _) => apply sound_read
  | |- sound _ get_window => apply sound_get_window
  | |- sound _ (modify_store _) => apply sound_modify_store
  | |- sound _ (emit _) => apply sound_emit; reflexivity
  | |- sound _ (modify (save_pending _)) => apply sound_modify, R_save
  | |- sound _ (modify clear_pending) => apply sound_modify, R_clear
  | |- sound _ (modify _) =>
      apply sound_modify; intros ?; first [apply R_inflight | apply R_ticks]
  | |- sound _ (update _ _ _) => apply sound_update
  | |- sound _ (drec _ _) => apply sound_drec
  | |- sound _ (run_callback _ _) => apply sound_run_callback
  | |- sound _ (if ?b then _ else _) => destruct b
  | |- sound _ (match ?x with _ => _ end) => destruct x
  end.

Lemma sound_fetchDone : sound R (fetchDone host drec).
Proof. unfold fetchDone. repeat sound_step. Qed.

Lemma sound_addError (err : JsVal) : sound R (addError host drec fuel err).
Proof. unfold addError. repeat sound_step. Qed.

Lemma sound_addSnippet (x : JsVal) : sound R (addSnippet host x).
Proof. unfold addSnippet. repeat sound_step. Qed.

Lemma sound_for_each (f : JsVal -> M unit) (l : list JsVal) :
  (forall x, sound R (f x)) -> sound R (for_each f l).
Proof. intros Hf. induction l; simpl; repeat sound_step; auto. Qed.

Lemma sound_notify (o : option JsVal) : sound R (notify_location drec o).
Proof. unfold notify_location. repeat sound_step. Qed.

Lemma sound_done_case (data : JsVal) (field : string) (k : JsVal -> M unit) :
  (forall r, sound R (k r)) -> sound R (done_case host drec fuel data field k).
Proof.
  intros Hk. unfold done_case.
  repeat first [apply sound_fetchDone | apply sound_addError | apply Hk | sound_step].
Qed.

Lemma sound_dispatch_case (tag : Tag) (type data : JsVal) :
  sound R (dispatch_case host drec fuel tag type data).
Proof.
  destruct tag; unfold dispatch_case, fetchStart, call_api, call_loc_push,
    call_loc_replace, call_loc_back, addPendingDispatch, addSearch;
  repeat first [ apply sound_done_case; intros ?
               | apply sound_fetchDone | apply sound_addError
               | apply sound_addSnippet
               | apply sound_notify | apply sound_for_each; intros ?
               | sound_step ].
Qed.

Lemma sound_dispatch_body (type data : JsVal) :
  sound R (dispatch_body host drec fuel type data).
Proof.
  unfold dispatch_body. repeat sound_step. apply sound_dispatch_case.
Qed.

End Preservation.

(** ** The equations of [update] *)

(** Called during a render, [update] only notes the request. *)
Lemma update_rendering (host : Host) (drec : JsVal -> JsVal -> M unit)
    (fuel : nat) (w : World) :
  isRendering w = true ->
  update host drec fuel w =
  (Ret tt, with_isUpdatePending true (log_event EvUpdateCall w)).
Proof.
  intros H. destruct fuel; unfold update, bind, emit, modify, read; simpl;
    rewrite H; reflexivity.
Qed.

Lemma update_idle_O (host : Host) (drec : JsVal -> JsVal -> M unit) (w : World) :
  isRendering w = false ->
  update host drec O w = (OutOfFuel, log_event EvUpdateCall w).
Proof.
  intros H. unfold update, bind, emit, modify, read; simpl; rewrite H; reflexivity.
Qed.

(** Called outside a render, [update] runs one pass and then, if a request
    was noted during the pass, calls itself. *)
Lemma update_idle_S (host : Host) (drec : JsVal -> JsVal -> M unit)
    (fuel : nat) (w : World) :
  isRendering w = false ->
  update host drec (S fuel) w =
  match run_callback drec (render host (store w)) (pass_start w) with
  | (Ret _, w2) =>
      if isUpdatePending w2
      then update host drec fuel (with_isUpdatePending false (end_render w2))
      else (Ret tt, end_render w2)
  | (Throw e, w2) => (Throw e, w2)
  | (OutOfFuel, w2) => (OutOfFuel, w2)
  end.
Proof.
  intros H. cbn [update]. unfold bind at 1. unfold emit at 1, modify at 1.
  unfold bind at 1. unfold read at 1. cbn [isRendering log_event]. rewrite H.
  unfold bind at 1. unfold emit at 1, modify at 1.
  unfold bind at 1. unfold modify at 1.
  unfold bind at 1. unfold bind at 1, read at 1. fold (pass_start w).
  cbn [store begin_render log_event with_isRendering pass_start].
  destruct (run_callback drec (render host (store w)) (pass_start w))
    as [[[] | e |] w2]; try reflexivity.
  unfold bind at 1, modify at 1. unfold bind at 1, read at 1.
  cbn [isUpdatePending end_render log_event with_isRendering].
  destruct (isUpdatePending w2); reflexivity.
Qed.

(** A callback that dispatches nothing only schedules its tasks. *)
Lemma run_callback_quiet (drec : JsVal -> JsVal -> M unit) (c : Callback)
    (w : World) :
  quiet c = true ->
  run_callback drec c w = (Ret tt, with_ticks (ticks w ++ scheduled c) w).
Proof.
  revert w. induction c as [| t d next IH | t next IH | e]; intros w Hq;
    try discriminate.
  - simpl. rewrite app_nil_r. now destruct w.
  - simpl in *. unfold bind, modify. rewrite IH by assumption. simpl.
    now rewrite <- app_assoc.
Qed.

(** With a render function that dispatches nothing, [update] changes
    neither the store, nor the outstanding API calls, nor [window]. *)
Lemma update_quiet_frame (host : Host) (drec : JsVal -> JsVal -> M unit)
    (fuel : nat) (w : World) :
  quiet (render host (store w)) = true ->
  store (snd (update host drec fuel w)) = store w /\
  inflight (snd (update host drec fuel w)) = inflight w /\
  window (snd (update host drec fuel w)) = window w.
Proof.
  revert w. induction fuel as [| fuel IH]; intros w Hq;
    (destruct (isRendering w) eqn:Hr;
     [rewrite update_rendering by assumption; now idtac |]).
  - rewrite update_idle_O by assumption. now idtac.
  - rewrite update_idle_S by assumption.
    rewrite (run_callback_quiet _ _ _ Hq).
    cbn [isUpdatePending with_ticks pass_start begin_render log_event
         with_isRendering].
    destruct (isUpdatePending w); [| now idtac].
    match goal with |- context [update host drec fuel ?x] =>
      specialize (IH x Hq) end.
    exact IH.
Qed.

(** With such a render function [update] returns, after at most two
    passes. *)
Lemma update_quiet_returns (host : Host) (drec : JsVal -> JsVal -> M unit)
    (fuel : nat) (w : World) :
  (forall st, quiet (render host st) = true) ->
  exists w', update host drec (S (S fuel)) w = (Ret tt, w') /\
    (update_calls w < update_calls w')%nat /\
    (isRendering w = false ->
     isRendering w' = false /\ (renders w < renders w')%nat) /\
    (isRendering w = true -> isUpdatePending w' = true).
Proof.
  intros Hq. destruct (isRendering w) eqn:Hr.
  - rewrite update_rendering by assumption. eexists; split; [reflexivity |].
    split; [| split; [discriminate | reflexivity]].
    change (update_calls (with_isUpdatePending true (log_event EvUpdateCall w)))
      with (S (update_calls w)). lia.
  - rewrite update_idle_S by assumption.
    rewrite (run_callback_quiet _ _ _ (Hq _)).
    cbn [isUpdatePending with_ticks pass_start begin_render log_event
         with_isRendering].
    destruct (isUpdatePending w).
    + rewrite update_idle_S by reflexivity.
      rewrite (run_callback_quiet _ _ _ (Hq _)).
      cbn [isUpdatePending with_ticks pass_start begin_render log_event
           with_isRendering with_isUpdatePending end_render].
      eexists; split; [reflexivity |].
      unfold update_calls, renders, count_events; simpl.
      split; [lia | split; [intros _; split; [reflexivity | lia] | discriminate]].
    + eexists; split; [reflexivity |].
      unfold update_calls, renders, count_events; simpl.
      split; [lia | split; [intros _; split; [reflexivity | lia] | discriminate]].
Qed.

(** ** The render scheduler *)

Lemma sched_refl (w : World) : sched_step w w.
Proof.
  repeat split; auto. rewrite Nat.ltb_irrefl. now rewrite orb_false_r.
Qed.

Lemma sched_trans (w1 w2 w3 : World) :
  sched_step w1 w2 -> sched_step w2 w3 -> sched_step w1 w3.
Proof.
  intros (Ha & Hb & Hc) (Ha' & Hb' & Hc'). split; [auto | split; [lia |]].
  intros H1. destruct (Hc H1) as (H2 & Hr & Hp).
  destruct (Hc' H2) as (H3 & Hr' & Hp').
  repeat split; [assumption | congruence |].
  rewrite Hp', Hp.
  destruct (isUpdatePending w1); simpl; [reflexivity |].
  destruct (Nat.ltb_spec (update_calls w1) (update_calls w2));
  destruct (Nat.ltb_spec (update_calls w2) (update_calls w3));
  destruct (Nat.ltb_spec (update_calls w1) (update_calls w3));
    simpl; try reflexivity; lia.
Qed.

Lemma sched_same (w w' : World) :
  effects w' = effects w -> isRendering w' = isRendering w ->
  isUpdatePending w' = isUpdatePending w -> sched_step w w'.
Proof.
  intros He Hr Hp.
  unfold sched_step, well_nested, update_calls, renders, count_events.
  rewrite He, Hr, Hp. repeat split; auto.
  rewrite Nat.ltb_irrefl. now rewrite orb_false_r.
Qed.

Lemma render_state_plain (e : Event) (trace : list Event) :
  plain e = true -> render_state (e :: trace) = render_state trace.
Proof.
  intros H. simpl. destruct (render_state trace); [| reflexivity].
  destruct e; try reflexivity; discriminate.
Qed.

Lemma sched_plain (e : Event) (w : World) :
  plain e = true -> sched_step w (log_event e w).
Proof.
  intros H. unfold sched_step, well_nested, update_calls, renders, count_events.
  cbn [effects isRendering isUpdatePending log_event].
  rewrite (render_state_plain e _ H).
  assert (is_update_call e = false) as Hu
    by (destruct e; try reflexivity; discriminate).
  assert (is_render_begin e = false) as Hb
    by (destruct e; try reflexivity; discriminate).
  cbn [List.filter]. rewrite Hu, Hb.
  repeat split; auto. rewrite Nat.ltb_irrefl. now rewrite orb_false_r.
Qed.

Lemma sched_save (v : string) (w : World) : sched_step w (save_pending v w).
Proof.
  unfold sched_step, well_nested, update_calls, renders, count_events. simpl.
  destruct (render_state (effects w)); repeat split; auto;
  rewrite Nat.ltb_irrefl; now rewrite orb_false_r.
Qed.

Lemma sched_clear (w : World) : sched_step w (clear_pending w).
Proof.
  unfold sched_step, well_nested, update_calls, renders, count_events. simpl.
  destruct (render_state (effects w)); repeat split; auto;
  rewrite Nat.ltb_irrefl; now rewrite orb_false_r.
Qed.

(** A request for a render made during a render. *)
Lemma sched_request (w : World) :
  isRendering w = true ->
  sched_step w (with_isUpdatePending true (log_event EvUpdateCall w)).
Proof.
  intros Hr. unfold sched_step.
  change (update_calls (with_isUpdatePending true (log_event EvUpdateCall w)))
    with (S (update_calls w)).
  change (renders (with_isUpdatePending true (log_event EvUpdateCall w)))
    with (renders w).
  split; [| split; [lia |]].
  - unfold well_nested. simpl. now destruct (render_state (effects w)).
  - intros _. repeat split; auto. simpl.
    destruct (Nat.ltb_spec (update_calls w) (S (update_calls w))); [| lia].
    now rewrite orb_true_r.
Qed.

Lemma sched_call (w : World) :
  isRendering w = false -> sched_step w (log_event EvUpdateCall w).
Proof.
  intros Hr. unfold sched_step.
  change (update_calls (log_event EvUpdateCall w)) with (S (update_calls w)).
  split; [| split; [lia | simpl; congruence]].
  unfold well_nested. simpl. now destruct (render_state (effects w)).
Qed.

Lemma sched_pass_start (w : World) :
  isRendering w = false ->
  (well_nested w -> well_nested (pass_start w)) /\
  update_calls (pass_start w) = S (update_calls w) /\
  renders (pass_start w) = S (renders w) /\
  isRendering (pass_start w) = true /\
  isUpdatePending (pass_start w) = isUpdatePending w.
Proof.
  intros H. unfold well_nested, update_calls, renders, count_events, pass_start.
  simpl. rewrite H. repeat split; auto. intros ->. reflexivity.
Qed.

Lemma sched_end_render (w : World) :
  isRendering w = true ->
  (well_nested w -> well_nested (end_render w)) /\
  update_calls (end_render w) = update_calls w /\
  renders (end_render w) = renders w.
Proof.
  intros H. unfold well_nested, update_calls, renders, count_events.
  simpl. rewrite H. repeat split; auto. intros ->. reflexivity.
Qed.

Section Scheduler.

Variable host : Host.
Variable drec : JsVal -> JsVal -> M unit.
Hypothesis drec_sched : forall t d, sound sched_step (drec t d).

Lemma callback_sched (c : Callback) : sound sched_step (run_callback drec c).
Proof.
  apply sound_run_callback;
    first [ exact sched_refl | exact sched_trans | exact drec_sched
          | intros; now apply sched_same ].
Qed.

Lemma update_sched (fuel : nat) : sound sched_step (update host drec fuel).
Proof.
  induction fuel as [| fuel IH]; intros w.
  - destruct (isRendering w) eqn:Hr.
    + rewrite update_rendering by assumption. now apply sched_request.
    + rewrite update_idle_O by assumption. now apply sched_call.
  - destruct (isRendering w) eqn:Hr.
    + rewrite update_rendering by assumption. now apply sched_request.
    + rewrite update_idle_S by assumption.
      destruct (sched_pass_start w Hr) as (Hw0 & Hc0 & _ & Hr0 & _).
      pose proof (callback_sched (render host (store w)) (pass_start w))
        as (Hw1 & Hc1 & Hx).
      destruct (Hx Hr0) as (Hr1 & _ & _). clear Hx.
      destruct (run_callback drec (render host (store w)) (pass_start w))
        as [[[] | e |] w2]; cbn [snd] in *.
      2,3: split; [auto | split; [lia | congruence]].
      destruct (sched_end_render w2 Hr1) as (Hw2 & Hc2 & _).
      destruct (isUpdatePending w2).
      * specialize (IH (with_isUpdatePending false (end_render w2))).
        destruct IH as (Hw3 & Hc3 & _).
        split; [| split; [| congruence]].
        -- intros H. apply Hw3. apply Hw2 in Hw1; auto.
        -- change (update_calls (with_isUpdatePending false (end_render w2)))
             with (update_calls (end_render w2)) in Hc3. lia.
      * cbn [snd]. split; [auto | split; [lia | congruence]].
Qed.

End Scheduler.

(** Every dispatch respects the scheduler, whatever the collaborators do. *)
Lemma dispatch_sched (host : Host) (fuel : nat) (type data : JsVal) :
  sound sched_step (dispatch host fuel type data).
Proof.
  revert type data. induction fuel as [| fuel IH]; intros type data.
  - intros w. apply sched_refl.
  - rewrite dispatch_S. apply sound_dispatch_body;
      first [ exact sched_refl | exact sched_trans | exact sched_plain
            | exact sched_save | exact sched_clear | exact IH
            | now apply update_sched
            | intros; now apply sched_same ].
Qed.

Lemma dispatch_well_nested (host : Host) (fuel : nat) (type data : JsVal)
    (w : World) :
  well_nested w -> well_nested (snd (dispatch host fuel type data w)).
Proof. apply dispatch_sched. Qed.

(** X5.  A pass that returns and during which [update] was not called is
    the only one: [update] returns after it with one more render. *)
Lemma single_pass (host : Host) (n : nat) (w w1 : World) :
  isRendering w = false -> isUpdatePending w = false ->
  run_callback (dispatch host (S n)) (render host (store w)) (pass_start w)
    = (Ret tt, w1) ->
  update_calls w1 = update_calls (pass_start w) ->
  store_update host (S n) w = (Ret tt, end_render w1) /\
  renders (end_render w1) = S (renders w).
Proof.
  intros Hr Hp Hpass Hcalls.
  destruct (sched_pass_start w Hr) as (Hw0 & Hc0 & Hn0 & Hr0 & Hp0).
  pose proof (callback_sched (dispatch host (S n))
                (dispatch_sched host (S n)) (render host (store w)) (pass_start w))
    as (Hw1 & Hc1 & Hx).
  rewrite Hpass in Hw1, Hc1, Hx. cbn [snd] in *.
  destruct (Hx Hr0) as (Hr1 & Hn1 & Hp1). clear Hx.
  assert (isUpdatePending w1 = false) as Hpend.
  { rewrite Hp1, Hp0, Hp, Hcalls. now rewrite Nat.ltb_irrefl. }
  split.
  - unfold store_update. rewrite update_idle_S by assumption.
    now rewrite Hpass, Hpend.
  - destruct (sched_end_render w1 Hr1) as (_ & _ & Hne). lia.
Qed.

(** ** Relations that do not depend on the scheduler's flags *)

Section FramePreservation.

Variable R : World -> World -> Prop.
Hypothesis R_refl : forall w, R w w.
Hypothesis R_trans : forall w1 w2 w3, R w1 w2 -> R w2 w3 -> R w1 w3.
Hypothesis R_same :
  forall w w', effects w' = effects w -> window w' = window w -> R w w'.
Hypothesis R_event :
  forall e w, is_storage e = false -> R w (log_event e w).
Hypothesis R_save : forall v w, R w (save_pending v w).
Hypothesis R_clear : forall w, R w (clear_pending w).

Variable host : Host.

Lemma frame_begin (w : World) : R w (begin_render w).
Proof.
  apply R_trans with (with_isRendering true w); [now apply R_same |].
  now apply R_event.
Qed.

Lemma frame_end (w : World) : R w (end_render w).
Proof.
  apply R_trans with (with_isRendering false w); [now apply R_same |].
  now apply R_event.
Qed.

Lemma frame_flag (b : bool) (w : World) : R w (with_isUpdatePending b w).
Proof. now apply R_same. Qed.

Lemma frame_ticks (l : list Task) (w : World) : R w (with_ticks l w).
Proof. now apply R_same. Qed.

Ltac frame_step Hd :=
  lazymatch goal with
  | |- sound _ (bind _ _) => apply (sound_bind R R_trans); [| intros ?]
  | |- sound _ (emit _) =>
      apply sound_modify; intros ?; apply R_event; reflexivity
  | |- sound _ (read _) => apply (sound_read R R_refl)
  | |- sound _ (ret _) => apply (sound_ret R R_refl)
  | |- sound _ (lift _) => apply (sound_lift R R_refl)
  | |- sound _ (modify begin_render) => apply sound_modify, frame_begin
  | |- sound _ (modify end_render) => apply sound_modify, frame_end
  | |- sound _ (modify (with_isUpdatePending _)) =>
      apply sound_modify, frame_flag
  | |- sound _ (run_callback _ _) =>
      apply (sound_run_callback R R_refl R_trans frame_ticks _ Hd)
  | |- sound _ (if ?b then _ else _) => destruct b
  end.

Lemma frame_update (drec : JsVal -> JsVal -> M unit) (fuel : nat) :
  (forall t d, sound R (drec t d)) -> sound R (update host drec fuel).
Proof.
  intros Hd. induction fuel as [| fuel IH]; cbn [update];
    repeat first [exact IH | frame_step Hd].
Qed.

Lemma frame_dispatch (fuel : nat) (type data : JsVal) :
  sound R (dispatch host fuel type data).
Proof.
  revert type data. induction fuel as [| fuel IH]; intros type data.
  - intros w. apply R_refl.
  - rewrite dispatch_S. apply sound_dispatch_body;
      first [ exact R_refl | exact R_trans | exact R_save | exact R_clear
            | exact IH | now apply frame_update
            | intros; now apply R_same
            | intros e w He; apply R_event; now destruct e ].
Qed.

Lemma frame_store_update (fuel : nat) : sound R (store_update host fuel).
Proof. apply frame_update. intros. apply frame_dispatch. Qed.

End FramePreservation.

(** ** The pending-action slot *)

Lemma bridge_refl (w : World) : bridge_step w w.
Proof. repeat split; auto. Qed.

Lemma bridge_trans (w1 w2 w3 : World) :
  bridge_step w1 w2 -> bridge_step w2 w3 -> bridge_step w1 w3.
Proof.
  intros (Ha & Hb & Hc) (Ha' & Hb' & Hc'). repeat split; auto; [lia |].
  intros He Hn. apply Hc'; [lia |]. apply Hc; [lia | assumption].
Qed.

Lemma bridge_same (w w' : World) :
  effects w' = effects w -> window w' = window w -> bridge_step w w'.
Proof.
  intros He Hw. unfold bridge_step, saves, count_events, pending_slot.
  rewrite He, Hw. repeat split; auto.
Qed.

Lemma bridge_event (e : Event) (w : World) :
  is_storage e = false -> bridge_step w (log_event e w).
Proof.
  intros H. unfold bridge_step, saves, count_events, pending_slot.
  cbn [effects window log_event List.filter].
  assert (is_storage_set e = false) as ->
    by (destruct e; try reflexivity; discriminate).
  repeat split; auto.
Qed.

Lemma bridge_save (v : string) (w : World) : bridge_step w (save_pending v w).
Proof.
  unfold bridge_step. change (saves (save_pending v w)) with (S (saves w)).
  repeat split; [discriminate | lia | lia].
Qed.

Lemma bridge_clear (w : World) : bridge_step w (clear_pending w).
Proof.
  unfold bridge_step. change (saves (clear_pending w)) with (saves w).
  repeat split; [discriminate | lia].
Qed.

Lemma dispatch_bridge (host : Host) (fuel : nat) (type data : JsVal) :
  sound bridge_step (dispatch host fuel type data).
Proof.
  apply frame_dispatch;
    first [ exact bridge_refl | exact bridge_trans | exact bridge_same
          | exact bridge_event | exact bridge_save | exact bridge_clear ].
Qed.

Lemma store_update_bridge (host : Host) (fuel : nat) :
  sound bridge_step (store_update host fuel).
Proof.
  apply frame_store_update;
    first [ exact bridge_refl | exact bridge_trans | exact bridge_same
          | exact bridge_event | exact bridge_save | exact bridge_clear ].
Qed.

(** ** The cases of [dispatch] *)

Lemma run_pending_empty (host : Host) (fuel : nat) (d : JsVal) (w : World) :
  window w = Some {| pendingDispatch := None |} ->
  dispatch host (S fuel) (T RUN_PENDING_DISPATCH) d w =
  (Ret tt, log_event (EvDebug false (T RUN_PENDING_DISPATCH) d) w).
Proof.
  intros Hw. rewrite dispatch_tag. unfold dispatch_case, bind, get_window.
  cbn [window log_event]. rewrite Hw. reflexivity.
Qed.

Lemma run_pending_full (host : Host) (fuel : nat) (d : JsVal) (w : World)
    (value : string) :
  window w = Some {| pendingDispatch := Some value |} ->
  dispatch host (S fuel) (T RUN_PENDING_DISPATCH) d w =
  (let event := default VUndefined (JSON_parse host value) in
   let* event_type := lift (get_prop event "type") in
   let* event_data := lift (get_prop event "data") in
   dispatch host fuel event_type event_data ;;
   store_update host fuel)
    (clear_pending (log_event (EvDebug false (T RUN_PENDING_DISPATCH) d) w)).
Proof.
  intros Hw. rewrite dispatch_tag. unfold dispatch_case.
  unfold bind at 1. unfold get_window. cbn [window log_event]. rewrite Hw.
  cbn [pendingDispatch]. reflexivity.
Qed.

Lemma addError_truthy (host : Host) (drec : JsVal -> JsVal -> M unit)
    (fuel : nat) (err : JsVal) (w : World) :
  truthy err = true ->
  addError host drec fuel err w = (record_error err ;; update host drec fuel) w.
Proof.
  intros Ht. unfold addError.
  rewrite !(truthy_get_prop err _ Ht).
  unfold record_error, bind, lift, modify_store, emit, modify. reflexivity.
Qed.

(** A [_DONE] action whose [err] is truthy does [fetchDone()], pushes and
    prints the error and calls [update]; nothing else. *)
Lemma done_error_eq (host : Host) (fuel : nat) (tag : Tag) (data err : JsVal)
    (w : World) :
  is_done_tag tag = true ->
  get_prop data "err" = Ret err -> truthy err = true ->
  dispatch host (S fuel) (T tag) data w =
  (fetchDone host (dispatch host fuel) ;;
   record_error err ;;
   store_update host fuel)
    (log_event (EvDebug false (T tag) data) w).
Proof.
  intros Htag Herr Ht.
  destruct tag; try discriminate Htag; rewrite dispatch_tag;
    unfold dispatch_case, done_case; unfold bind at 1;
    symmetry; unfold bind at 1; symmetry;
    (destruct (fetchDone host (dispatch host fuel) _) as [[[] | e |] w1];
     [| reflexivity | reflexivity]);
    unfold bind at 1, lift at 1; rewrite Herr;
    try (unfold bind at 1, lift at 1; rewrite (get_prop_total _ _ _ _ Herr));
    rewrite Ht; apply addError_truthy; assumption.
Qed.

Lemma fetchDone_quiet (host : Host) (drec : JsVal -> JsVal -> M unit)
    (w : World) :
  (forall observer st,
     onFetchDone host = Some observer -> quiet (observer st) = true) ->
  exists w1, fetchDone host drec w = (Ret tt, w1) /\
    store w1 = add_fetchCount (-1) (store w) /\
    inflight w1 = inflight w /\ window w1 = window w /\
    isRendering w1 = isRendering w /\ isUpdatePending w1 = isUpdatePending w /\
    update_calls w1 = update_calls w /\ renders w1 = renders w.
Proof.
  intros Hq. unfold fetchDone.
  destruct (onFetchDone host) as [observer |] eqn:Ho.
  - unfold bind at 1, modify_store at 1, modify at 1.
    unfold bind at 1, emit at 1, modify at 1.
    unfold bind at 1, read at 1.
    rewrite (run_callback_quiet _ _ _ (Hq observer _ eq_refl)).
    eexists; split; [reflexivity |]. repeat split.
  - eexists; split; [reflexivity |]. repeat split.
Qed.

(** A start action of a logged-in user increments the counter, hands the
    API collaborator one call and calls [update]. *)
Lemma start_eq (host : Host) (fuel : nat) (tag : Tag) (ep : Endpoint)
    (data : JsVal) (w : World) :
  start_endpoint tag = Some ep ->
  nullish (userName (store w)) = false ->
  dispatch host (S fuel) (T tag) data w =
  store_update host fuel
    (with_inflight (inflight w ++ [(ep, data)])
       (with_store (add_fetchCount 1)
          (log_event (EvDebug false (T tag) data) w))).
Proof.
  intros Hep Hu.
  destruct tag; try discriminate Hep; inversion Hep; subst ep;
    rewrite dispatch_tag; unfold dispatch_case, fetchStart, call_api, bind,
      modify_store, modify, read;
    cbn [store with_store log_event userName set_app];
    rewrite ?Hu; reflexivity.
Qed.

Lemma start_registers_call (host : Host) (fuel : nat) (tag : Tag)
    (ep : Endpoint) (data : JsVal) (w : World) :
  start_endpoint tag = Some ep ->
  nullish (userName (store w)) = false ->
  (forall st, quiet (render host st) = true) ->
  fetchCount (app (store (snd (dispatch host (S fuel) (T tag) data w))))
    = fetchCount (app (store w)) + 1 /\
  inflight (snd (dispatch host (S fuel) (T tag) data w))
    = (inflight w ++ [(ep, data)])%list.
Proof.
  intros Hep Hu Hq. rewrite (start_eq _ _ _ _ _ _ Hep Hu).
  match goal with |- context [store_update host fuel ?x] =>
    pose proof (update_quiet_frame host (dispatch host fuel) fuel x (Hq _))
      as (Hs & Hi & _)
  end.
  unfold store_update. rewrite Hs, Hi. split; reflexivity.
Qed.

(** [API_SNIPPET_ADD] without a user name, in a browser: the steps up to
    the call of [update] by [addError], that call, and the redirect. *)
Lemma add_without_user_eq (host : Host) (fuel : nat) (data : JsVal) (w : World) :
  window w <> None ->
  nullish (userName (store w)) = true ->
  dispatch host (S fuel) (T API_SNIPPET_ADD) data w =
  (store_update host fuel ;;
   let* _ := get_window in
   emit (EvRedirect "/auth/twitter"))
    (login_prompt host data w).
Proof.
  intros Hwin Hnull.
  rewrite dispatch_tag. unfold dispatch_case, fetchStart.
  unfold bind at 1. unfold modify_store at 1, modify at 1.
  unfold bind at 1. unfold read at 1.
  cbn [store with_store log_event userName set_app add_fetchCount].
  rewrite Hnull.
  unfold bind at 1. unfold addPendingDispatch at 1. unfold bind at 1.
  unfold get_window at 1. cbn [window with_store log_event].
  destruct (window w) as [win |] eqn:Ew; [| congruence].
  unfold modify at 1.
  unfold bind at 1. unfold addError, new_Error, lift, get_prop.
  unfold bind at 1. simpl assoc. cbn [default].
  unfold bind at 1. unfold bind at 1.
  unfold bind at 1. unfold modify_store at 1, modify at 1.
  unfold bind at 1. unfold emit at 1, modify at 1.
  reflexivity.
Qed.

(** With a render function that dispatches nothing it leaves the counter
    one above its old value and no call outstanding that could bring it
    back. *)
Lemma add_without_user_leaks (host : Host) (fuel : nat) (data : JsVal)
    (w : World) :
  window w <> None ->
  nullish (userName (store w)) = true ->
  (forall st, quiet (render host st) = true) ->
  fetchCount (app (store (snd (dispatch host (S fuel) (T API_SNIPPET_ADD) data w))))
    = fetchCount (app (store w)) + 1 /\
  inflight (snd (dispatch host (S fuel) (T API_SNIPPET_ADD) data w)) = inflight w.
Proof.
  intros Hwin Hnull Hq. rewrite (add_without_user_eq _ _ _ _ Hwin Hnull).
  pose proof (update_quiet_frame host (dispatch host fuel) fuel
                (login_prompt host data w) (Hq _)) as (Hs & Hi & _).
  fold (store_update host fuel) in Hs, Hi.
  assert (forall r : Res unit * World,
            r = (store_update host fuel ;;
                 let* _ := get_window in
                 emit (EvRedirect "/auth/twitter")) (login_prompt host data w) ->
            store (snd r) = store (login_prompt host data w) /\
            inflight (snd r) = inflight (login_prompt host data w)) as H.
  { intros r Hr. unfold bind at 1 in Hr.
    destruct (store_update host fuel (login_prompt host data w))
      as [[[] | e |] w2] eqn:E; cbn [snd] in *;
      [| subst r; split; assumption | subst r; split; assumption].
    unfold bind, get_window, emit, modify in Hr.
    destruct (window w2); subst r; cbn [snd store inflight log_event];
      split; assumption. }
  destruct (H _ eq_refl) as (-> & ->). split; reflexivity.
Qed.

(** ** The fetch counter

    With a render function and an observer that dispatch nothing. *)

Lemma count_refl (w : World) : count_same w w.
Proof. split; reflexivity. Qed.

Lemma count_trans (w1 w2 w3 : World) :
  count_same w1 w2 -> count_same w2 w3 -> count_same w1 w3.
Proof. unfold count_same. intros [] []. split; congruence. Qed.

Section FetchCounter.

Variable host : Host.
Hypothesis quiet_render : forall st, quiet (render host st) = true.

Lemma update_count (drec : JsVal -> JsVal -> M unit) (fuel : nat) :
  sound count_same (update host drec fuel).
Proof.
  intros w. unfold count_same.
  now destruct (update_quiet_frame host drec fuel w (quiet_render _)) as (-> & -> & _).
Qed.

Ltac count_step :=
  lazymatch goal with
  | |- sound _ (bind _ _) =>
      apply (sound_bind count_same count_trans); [| intros ?]
  | |- sound _ (ret _) => apply (sound_ret count_same count_refl)
  | |- sound _ (throw _) => apply (sound_throw count_same count_refl)
  | |- sound _ (lift _) => apply (sound_lift count_same count_refl)
  | |- sound _ (read _) => apply (sound_read count_same count_refl)
  | |- sound _ get_window => apply (sound_get_window count_same count_refl)
  | |- sound _ (update _ _ _) => apply update_count
  | |- sound _ (modify_store _) =>
      apply sound_modify; intros ?; split; reflexivity
  | |- sound _ (emit _) => apply sound_modify; intros ?; split; reflexivity
  | |- sound _ (modify _) => apply sound_modify; intros ?; split; reflexivity
  | |- sound _ (if ?b then _ else _) => destruct b
  | |- sound _ (match ?x with _ => _ end) => destruct x
  end.

(** A location action starts no fetch and ends none. *)
Lemma location_count (fuel : nat) (tag : Tag) (d : JsVal) :
  is_location_tag tag = true ->
  sound count_same (dispatch host fuel (T tag) d).
Proof.
  revert tag d. induction fuel as [| fuel IH]; intros tag d Htag.
  - intros w. apply count_refl.
  - assert (forall o, sound count_same (notify_location (dispatch host fuel) o)) as Hn.
    { intros [l |]; simpl;
        [now apply IH | apply (sound_ret count_same count_refl)]. }
    assert (sound count_same
              (dispatch_case host (dispatch host fuel) fuel tag (T tag) d)) as Hc.
    { destruct tag; try discriminate Htag;
        unfold dispatch_case, call_loc_push, call_loc_replace, call_loc_back;
        repeat first [apply Hn | count_step]. }
    intros w. rewrite dispatch_tag. exact (Hc _).
Qed.

Lemma for_each_count (items : list JsVal) :
  sound count_same (for_each (addSnippet host) items).
Proof.
  induction items as [| x rest IH]; simpl; unfold addSnippet;
    repeat first [exact IH | count_step].
Qed.

(** Under these collaborators every [_DONE] action decrements the counter
    by one, however it completes. *)
Lemma done_count (fuel : nat) (tag : Tag) (data : JsVal) (w : World) :
  (forall observer st,
     onFetchDone host = Some observer -> quiet (observer st) = true) ->
  is_done_tag tag = true ->
  fetchCount (app (store (snd (dispatch host (S fuel) (T tag) data w))))
    = fetchCount (app (store w)) - 1 /\
  inflight (snd (dispatch host (S fuel) (T tag) data w)) = inflight w.
Proof.
  intros Hobs Htag. rewrite dispatch_tag.
  assert (forall err,
            sound count_same (addError host (dispatch host fuel) fuel err))
    as Herr.
  { intros err. unfold addError. repeat count_step. }
  destruct (fetchDone_quiet host (dispatch host fuel)
              (log_event (EvDebug (strict_eq (T tag) (T APP_RESIZE)) (T tag) data) w)
              Hobs)
    as (w1 & Hf & Hs1 & Hi1 & _).
  assert (fetchCount (app (store w1)) = fetchCount (app (store w)) - 1) as H1
    by (rewrite Hs1; reflexivity).
  assert (count_same w1
            (snd (dispatch_case host (dispatch host fuel) fuel tag (T tag) data
                    (log_event
                       (EvDebug (strict_eq (T tag) (T APP_RESIZE)) (T tag) data) w))))
    as [Ha Hb].
  { destruct tag; try discriminate Htag; unfold dispatch_case, done_case;
      unfold bind at 1; rewrite Hf;
      match goal with |- count_same w1 (snd (?k w1)) =>
        cut (sound count_same k); [intros Hk; exact (Hk w1) |]
      end;
      unfold addSnippet, addSearch;
      repeat first [ apply Herr | apply for_each_count
                   | apply (location_count fuel LOCATION_PUSH); reflexivity
                   | count_step ]. }
  split; [rewrite Ha; exact H1 | rewrite Hb; exact Hi1].
Qed.

(** X7.  A start action of a logged-in user followed by the answer of the API
    collaborator to its call, be it an error or a result: the counter is one
    above its old value in between and back at it afterwards, and the call
    is no longer outstanding. *)
Lemma start_then_answer_restores (fuel fuel' : nat) (tag : Tag) (ep : Endpoint)
    (data err result : JsVal) (w : World) :
  (forall observer st,
     onFetchDone host = Some observer -> quiet (observer st) = true) ->
  start_endpoint tag = Some ep ->
  nullish (userName (store w)) = false ->
  fetchCount (app (store (snd (dispatch host (S fuel) (T tag) data w))))
    = fetchCount (app (store w)) + 1 /\
  fetchCount (app (store (snd (
      api_answer host (S fuel') (List.length (inflight w)) err result
        (snd (dispatch host (S fuel) (T tag) data w))))))
    = fetchCount (app (store w)) /\
  inflight (snd (
      api_answer host (S fuel') (List.length (inflight w)) err result
        (snd (dispatch host (S fuel) (T tag) data w))))
    = inflight w.
Proof.
  intros Hobs Hep Hu.
  destruct (start_registers_call host fuel tag ep data w Hep Hu quiet_render)
    as (Hc & Hi).
  split; [exact Hc |].
  set (w1 := snd (dispatch host (S fuel) (T tag) data w)) in *.
  assert (inflight w1 !! List.length (inflight w) = Some (ep, data)) as Hl
    by (rewrite Hi; now apply list_lookup_middle).
  assert (take (List.length (inflight w)) (inflight w1)
          ++ drop (S (List.length (inflight w))) (inflight w1) = inflight w)%list
    as Hrest.
  { rewrite Hi, take_app_length. rewrite drop_ge; [apply app_nil_r |].
    rewrite length_app. simpl. lia. }
  assert (is_done_tag (done_tag ep) = true) as Hd by (now destruct ep).
  assert (api_answer host (S fuel') (List.length (inflight w)) err result w1
          = dispatch host (S fuel') (T (done_tag ep))
              (VObj [("err", err); (result_field ep, result)])
              (with_inflight (inflight w) w1)) as ->.
  { unfold api_answer, bind, read, modify. rewrite Hl, Hrest. reflexivity. }
  destruct (done_count fuel' (done_tag ep)
              (VObj [("err", err); (result_field ep, result)])
              (with_inflight (inflight w) w1) Hobs Hd) as (Hc2 & Hi2).
  split; [rewrite Hc2; cbn [store with_inflight]; lia | exact Hi2].
Qed.

End FetchCounter.

(** ** Scenarios *)

(** [API_SNIPPET_GET] with [{ id: "s1" }] on a fresh store: the counter
    goes to 1, and when the collaborator answers with the snippet,
    [API_SNIPPET_GET_DONE] brings it back to 0 and stores the snippet. *)
Example get_then_done :
  fetchCount (app (store fetching_world)) = 1 /\
  inflight fetching_world = [(SnippetGet, VObj [("id", VStr "s1")])] /\
  fst (api_answer sample_host 2 0 VNull
         (VObj [("id", VStr "s1"); ("body", VStr "x")]) fetching_world) = Ret tt /\
  fetchCount (app (store (snd (api_answer sample_host 2 0 VNull
      (VObj [("id", VStr "s1"); ("body", VStr "x")]) fetching_world)))) = 0 /\
  snippets (store (snd (api_answer sample_host 2 0 VNull
      (VObj [("id", VStr "s1"); ("body", VStr "x")]) fetching_world))) !! "s1"
    = Some (VObj [("id", VStr "s1"); ("body", VStr "x")]).
Proof. vm_compute. repeat split. Qed.

(** A request for the home page of a server that fetches nothing: the
    handler answers 200 before it returns. *)
Example home_page_status :
  effects (snd (router_get sample_server 3 (VStr "/"))) =
  [EvRespond 200 "index" VNull;
   EvRenderEnd; EvRenderBegin; EvDebugUpdate; EvUpdateCall;
   EvDebug false (T LOCATION_CHANGED)
     (VObj [("name", VStr "home"); ("params", VObj []); ("url", VStr "/");
            ("query", VObj []); ("pathname", VStr "/")]);
   EvLocReplace (VStr "/");
   EvDebug false (T LOCATION_REPLACE) (VStr "/")].
Proof. vm_compute. reflexivity. Qed.

(** A request to a server whose page fetches a document: the handler
    returns without a response and with one call outstanding; the answer of
    the collaborator brings the counter to zero and schedules [done]; the
    next tick sends the response. *)
Example deferred_response :
  fst (router_get doc_server 4 (VStr "/")) = Ret tt /\
  fetchCount (app (store doc_requested)) = 1 /\
  inflight doc_requested = [(DocGet, VStr "about")] /\
  count_events is_respond doc_requested = 0%nat /\
  fetchCount (app (store doc_answered)) = 0 /\
  doc (store doc_answered) = VStr "text" /\
  ticks doc_answered = [TDone] /\
  count_events is_respond doc_answered = 0%nat /\
  List.hd_error (effects doc_responded) = Some (EvRespond 200 "index" VNull) /\
  ticks doc_responded = [].
Proof. vm_compute. repeat split. Qed.

(** An error object is truthy, and so is every value but [undefined],
    [null], [false], [0] and the empty string. *)
Lemma object_truthy (fields : list (string * JsVal)) : truthy (VObj fields) = true.
Proof. reflexivity. Qed.

(** ** The claims *)

(** C1.  The counter is meant to return to its value once every start
    action has had its done action, whatever branch the start action took.
    It does not after [API_SNIPPET_ADD] without a user name: on a fresh
    store in the browser the dispatch returns with [fetchCount] at 1 and no
    API call outstanding, so that no callback is left to dispatch
    [API_SNIPPET_ADD_DONE], and whatever the API collaborator answers
    afterwards leaves the state as it is. *)
Theorem unauthenticated_add_leaks_fetchCount :
  fst (dispatch sample_host 2 (T API_SNIPPET_ADD) new_snippet
         (createStore empty_window)) = Ret tt /\
  fetchCount (app (store (snd (dispatch sample_host 2 (T API_SNIPPET_ADD)
                                 new_snippet (createStore empty_window))))) = 1 /\
  inflight (snd (dispatch sample_host 2 (T API_SNIPPET_ADD) new_snippet
                   (createStore empty_window))) = [] /\
  (forall fuel i err result,
     api_answer sample_host fuel i err result
       (snd (dispatch sample_host 2 (T API_SNIPPET_ADD) new_snippet
               (createStore empty_window)))
     = (Ret tt, snd (dispatch sample_host 2 (T API_SNIPPET_ADD) new_snippet
                       (createStore empty_window)))).
Proof.
  assert (inflight (snd (dispatch sample_host 2 (T API_SNIPPET_ADD) new_snippet
                           (createStore empty_window))) = []) as Hi
    by (vm_compute; reflexivity).
  split; [vm_compute; reflexivity |]. split; [vm_compute; reflexivity |].
  split; [exact Hi |].
  intros fuel i err result. unfold api_answer, bind, read. rewrite Hi.
  rewrite lookup_nil. reflexivity.
Qed.

(** C2.  The render function is never entered while it is running: every
    dispatch, in every state and with any collaborators, keeps the trace
    well nested, and a dispatch made during a render that calls [update]
    leaves [isUpdatePending] set and enters no render, so the request is not
    lost.  When [update] is called outside a render and [update] is called
    at least once during the pass (by however many dispatches), the pass
    completes, and then exactly one more pass runs, provided that one
    dispatches nothing: two entries of the render function in all. *)
Theorem render_scheduler_coalesces (host : Host) (n : nat) (w w1 : World) :
  well_nested w -> isRendering w = false -> isUpdatePending w = false ->
  run_callback (dispatch host (S (S n))) (render host (store w)) (pass_start w)
    = (Ret tt, w1) ->
  (update_calls (pass_start w) < update_calls w1)%nat ->
  render host (store w1) = CDone ->
  (forall fuel type data w0,
     well_nested w0 -> well_nested (snd (dispatch host fuel type data w0))) /\
  (forall fuel type data w0,
     isRendering w0 = true ->
     (update_calls w0 < update_calls (snd (dispatch host fuel type data w0)))%nat ->
     isUpdatePending (snd (dispatch host fuel type data w0)) = true /\
     renders (snd (dispatch host fuel type data w0)) = renders w0) /\
  well_nested w1 /\ isRendering w1 = true /\ renders w1 = S (renders w) /\
  store_update host (S (S n)) w
    = (Ret tt, end_render (pass_start (with_isUpdatePending false (end_render w1)))) /\
  renders (end_render (pass_start (with_isUpdatePending false (end_render w1))))
    = S (S (renders w)) /\
  well_nested (end_render (pass_start (with_isUpdatePending false (end_render w1)))).
Proof.
  intros Hw Hr Hp Hpass Hcalls Hquiet.
  split; [intros; now apply dispatch_well_nested |].
  split.
  { intros fuel type data w0 Hr0 Hlt.
    destruct (dispatch_sched host fuel type data w0) as (_ & _ & H).
    destruct (H Hr0) as (_ & Hren & Hpen). split; [| assumption].
    rewrite Hpen. apply Nat.ltb_lt in Hlt. rewrite Hlt. apply orb_true_r. }
  destruct (sched_pass_start w Hr) as (Hw0 & Hc0 & Hn0 & Hr0 & Hp0).
  pose proof (callback_sched (dispatch host (S (S n)))
                (dispatch_sched host (S (S n))) (render host (store w))
                (pass_start w))
    as (Hw1 & Hc1 & Hx).
  rewrite Hpass in Hw1, Hc1, Hx. cbn [snd] in *.
  destruct (Hx Hr0) as (Hr1 & Hn1 & Hp1). clear Hx.
  assert (isUpdatePending w1 = true) as Hpend.
  { rewrite Hp1, Hp0, Hp. apply Nat.ltb_lt in Hcalls. now rewrite Hcalls. }
  destruct (sched_end_render w1 Hr1) as (Hwe & _ & Hne).
  set (w3 := with_isUpdatePending false (end_render w1)).
  assert (store_update host (S (S n)) w = (Ret tt, end_render (pass_start w3)))
    as Hrun.
  { unfold store_update. rewrite update_idle_S by assumption.
    rewrite Hpass, Hpend. rewrite update_idle_S by reflexivity.
    cbn [store with_isUpdatePending end_render log_event with_isRendering].
    rewrite Hquiet. reflexivity. }
  split; [now apply Hw1, Hw0 |]. split; [assumption |].
  split; [congruence |]. split; [assumption |].
  assert (well_nested w3) as Hw3 by (apply Hwe; auto).
  destruct (sched_pass_start w3 eq_refl) as (Hw4 & _ & Hn4 & Hr4 & _).
  destruct (sched_end_render (pass_start w3) Hr4) as (Hw5 & _ & Hn5).
  split; [| auto].
  rewrite Hn5, Hn4.
  change (renders w3) with (renders (end_render w1)). congruence.
Qed.

(** A render whose first pass dispatches three actions: [update] is called
    four times in all, and the render function is entered twice. *)
Lemma render_scheduler_coalesces_witness :
  well_nested (createStore empty_window) /\
  run_callback (dispatch coalescing_host 2)
    (render coalescing_host (store (createStore empty_window)))
    (pass_start (createStore empty_window)) = (Ret tt, first_pass) /\
  (update_calls (pass_start (createStore empty_window))
   < update_calls first_pass)%nat /\
  update_calls first_pass = 4%nat /\
  render coalescing_host (store first_pass) = CDone /\
  store_update coalescing_host 2 (createStore empty_window) =
    (Ret tt,
     end_render (pass_start (with_isUpdatePending false (end_render first_pass)))) /\
  renders (end_render (pass_start (with_isUpdatePending false (end_render first_pass))))
    = 2%nat.
Proof.
  assert (H1 : well_nested (createStore empty_window)) by reflexivity.
  assert (H2 : run_callback (dispatch coalescing_host 2)
    (render coalescing_host (store (createStore empty_window)))
    (pass_start (createStore empty_window)) = (Ret tt, first_pass))
    by (vm_compute; reflexivity).
  assert (H3 : (update_calls (pass_start (createStore empty_window))
                < update_calls first_pass)%nat)
    by (apply Nat.ltb_lt; vm_compute; reflexivity).
  assert (H4 : render coalescing_host (store first_pass) = CDone)
    by (vm_compute; reflexivity).
  destruct (render_scheduler_coalesces coalescing_host 0
              (createStore empty_window) first_pass H1 eq_refl eq_refl H2 H3 H4)
    as (_ & _ & _ & _ & _ & Hrun & Hn & _).
  split; [exact H1 |]. split; [exact H2 |]. split; [exact H3 |].
  split; [vm_compute; reflexivity |]. split; [exact H4 |].
  split; [exact Hrun | exact Hn].
Defined.

(** C3.  [API_SNIPPET_ADD] dispatched in a browser while [store.userName]
    is [null] or [undefined]: by the time its [addError] calls [update] it
    has made no API call, pushed one error, the login message, and stored the
    serialized [{ type, data }] in [localStorage.pendingDispatch]; once that
    [update] returns it assigns [/auth/twitter] to [window.location.href]
    and returns.  With a render function that dispatches nothing the
    returned state still has no new API call and the action in the slot. *)
Theorem snippet_add_requires_login (host : Host) (fuel : nat) (data : JsVal)
    (w w2 : World) :
  window w <> None ->
  nullish (userName (store w)) = true ->
  store_update host fuel (login_prompt host data w) = (Ret tt, w2) ->
  dispatch host (S fuel) (T API_SNIPPET_ADD) data w
    = (Ret tt, log_event (EvRedirect "/auth/twitter") w2) /\
  inflight (login_prompt host data w) = inflight w /\
  errors (store (login_prompt host data w))
    = (errors (store w)
       ++ [{| err_message := VStr login_message; err_code := VNull |}])%list /\
  pending_slot (login_prompt host data w)
    = Some (JSON_stringify host (pending_action (T API_SNIPPET_ADD) data)) /\
  (quiet (render host (store (login_prompt host data w))) = true ->
   inflight w2 = inflight w /\
   store w2 = store (login_prompt host data w) /\
   pending_slot w2
     = Some (JSON_stringify host (pending_action (T API_SNIPPET_ADD) data))).
Proof.
  intros Hwin Hnull Hupd.
  split; [| split; [reflexivity | split; [reflexivity | split; [reflexivity |]]]].
  - rewrite (add_without_user_eq _ _ _ _ Hwin Hnull).
    unfold bind at 1. rewrite Hupd.
    unfold bind, get_window, emit, modify.
    pose proof (store_update_bridge host fuel (login_prompt host data w))
      as (Hw2 & _).
    rewrite Hupd in Hw2. cbn [snd] in Hw2.
    destruct (window w2); [reflexivity |].
    exfalso. apply Hw2; [discriminate | reflexivity].
  - intros Hq.
    pose proof (update_quiet_frame host (dispatch host fuel) fuel
                  (login_prompt host data w) Hq) as H.
    fold (store_update host fuel) in H. rewrite Hupd in H. cbn [snd] in H.
    destruct H as (Hs & Hi & Hw). repeat split; [exact Hi | exact Hs |].
    unfold pending_slot. now rewrite Hw.
Qed.

Lemma snippet_add_requires_login_witness :
  window (createStore empty_window) <> None /\
  nullish (userName (store (createStore empty_window))) = true /\
  dispatch sample_host 2 (T API_SNIPPET_ADD) new_snippet (createStore empty_window)
    = (Ret tt,
       log_event (EvRedirect "/auth/twitter")
         (snd (store_update sample_host 1
                 (login_prompt sample_host new_snippet (createStore empty_window))))).
Proof.
  assert (H1 : window (createStore empty_window) <> None) by discriminate.
  assert (H3 : store_update sample_host 1
                 (login_prompt sample_host new_snippet (createStore empty_window))
               = (Ret tt,
                  snd (store_update sample_host 1
                         (login_prompt sample_host new_snippet
                            (createStore empty_window)))))
    by (vm_compute; reflexivity).
  split; [exact H1 |]. split; [reflexivity |].
  exact (proj1 (snippet_add_requires_login sample_host 1 new_snippet
                  (createStore empty_window) _ H1 eq_refl H3)).
Defined.

(** C4, as claimed: the observer registered with the store would be called
    only when the count reaches zero, and on a later tick.  On the server,
    with two fetches outstanding, [fetchDone] brings the count to 1 and has
    called the registered observer [onFetchEnd] by the time it returns. *)
Lemma observer_runs_inside_fetchDone :
  fst (fetchDone (router_host sample_server)
         (dispatch (router_host sample_server) 1) two_fetches) = Ret tt /\
  fetchCount (app (store (snd (fetchDone (router_host sample_server)
         (dispatch (router_host sample_server) 1) two_fetches)))) = 1 /\
  count_events is_observer_call two_fetches = 0%nat /\
  count_events is_observer_call
    (snd (fetchDone (router_host sample_server)
            (dispatch (router_host sample_server) 1) two_fetches)) = 1%nat.
Proof. vm_compute. repeat split. Qed.

(** C4, amended.  [fetchDone] decrements the counter and then calls the
    registered observer, before it returns and whatever the new count is.
    The observer of the server, [onFetchEnd], hands [done] to
    [process.nextTick] exactly when the count it reads is zero: [fetchDone]
    itself sends no response, and [done] runs when that tick comes. *)
Theorem fetchDone_calls_observer_synchronously (host : Host)
    (observer : Store -> Callback) (drec : JsVal -> JsVal -> M unit)
    (w : World) :
  fetchDone (with_onFetchDone (Some observer) host) drec w
    = run_callback drec
        (observer (store (log_event EvObserver (with_store (add_fetchCount (-1)) w))))
        (log_event EvObserver (with_store (add_fetchCount (-1)) w)) /\
  fetchDone (router_host host) drec w
    = (Ret tt,
       if fetchCount (app (store w)) - 1 =? 0
       then with_ticks (ticks w ++ [TDone])
              (log_event EvObserver (with_store (add_fetchCount (-1)) w))
       else log_event EvObserver (with_store (add_fetchCount (-1)) w)) /\
  count_events is_respond (snd (fetchDone (router_host host) drec w))
    = count_events is_respond w /\
  (forall rest w0,
     ticks w0 = TDone :: rest -> run_tick w0 = done (with_ticks rest w0)).
Proof.
  split; [reflexivity |].
  assert (fetchDone (router_host host) drec w
          = (Ret tt,
             if fetchCount (app (store w)) - 1 =? 0
             then with_ticks (ticks w ++ [TDone])
                    (log_event EvObserver (with_store (add_fetchCount (-1)) w))
             else log_event EvObserver (with_store (add_fetchCount (-1)) w))) as H.
  { unfold fetchDone. cbn [router_host onFetchDone].
    unfold bind, modify_store, emit, modify, read, onFetchEnd.
    cbn [store with_store log_event app set_app fetchCount set_fetchCount].
    destruct (fetchCount (app (store w)) - 1 =? 0); reflexivity. }
  split; [exact H |]. split.
  - rewrite H. cbn [snd]. destruct (fetchCount (app (store w)) - 1 =? 0); reflexivity.
  - intros rest w0 Ht. unfold run_tick, bind, read. rewrite Ht. reflexivity.
Qed.

(** C5.  The slot is meant to be cleared and the dispatch to complete when
    the stored text is not JSON.  [RUN_PENDING_DISPATCH] does clear the
    slot, but then reads [event.type] of the [undefined] that the swallowed
    parse error left in [event], and throws a [TypeError]. *)
Theorem malformed_pending_dispatch_throws (host : Host) (fuel : nat)
    (d : JsVal) (w : World) (value : string) :
  window w = Some {| pendingDispatch := Some value |} ->
  JSON_parse host value = None ->
  dispatch host (S fuel) (T RUN_PENDING_DISPATCH) d w =
  (Throw TypeError,
   clear_pending (log_event (EvDebug false (T RUN_PENDING_DISPATCH) d) w)).
Proof.
  intros Hw Hp. rewrite (run_pending_full _ _ _ _ _ Hw). rewrite Hp. reflexivity.
Qed.

Lemma malformed_pending_dispatch_throws_witness :
  window corrupt_world = Some {| pendingDispatch := Some "{" |} /\
  JSON_parse sample_host "{" = None /\
  dispatch sample_host 1 (T RUN_PENDING_DISPATCH) VUndefined corrupt_world =
  (Throw TypeError,
   clear_pending
     (log_event (EvDebug false (T RUN_PENDING_DISPATCH) VUndefined) corrupt_world)).
Proof.
  assert (H2 : JSON_parse sample_host "{" = None) by (vm_compute; reflexivity).
  split; [reflexivity |]. split; [exact H2 |].
  exact (malformed_pending_dispatch_throws sample_host 0 VUndefined corrupt_world
           "{" eq_refl H2).
Defined.

(** C6.  A [_DONE] action whose payload carries an error, that is a truthy
    [err]: with an observer and a render function that dispatch nothing,
    the dispatch returns; the state it returns has the counter decremented,
    one record [{ message, code }] of the error appended to [store.errors]
    and the rest of the store ([snippets], [searches], [topSnippetIds],
    [doc], [location]) as before; no API call is added; and [update] was
    called: outside a render the render function ran, inside one the request
    is pending. *)
Theorem done_with_error_only_records_error (host : Host) (fuel : nat)
    (tag : Tag) (data err : JsVal) (w : World) :
  is_done_tag tag = true ->
  get_prop data "err" = Ret err ->
  truthy err = true ->
  (forall observer st,
     onFetchDone host = Some observer -> quiet (observer st) = true) ->
  (forall st, quiet (render host st) = true) ->
  exists w',
    dispatch host (S (S (S fuel))) (T tag) data w = (Ret tt, w') /\
    store w' = push_error (error_record err) (add_fetchCount (-1) (store w)) /\
    inflight w' = inflight w /\
    window w' = window w /\
    (update_calls w < update_calls w')%nat /\
    (isRendering w = false -> (renders w < renders w')%nat) /\
    (isRendering w = true -> isUpdatePending w' = true).
Proof.
  intros Htag Herr Ht Hobs Hq.
  rewrite (done_error_eq _ _ _ _ _ _ Htag Herr Ht).
  destruct (fetchDone_quiet host (dispatch host (S (S fuel)))
              (log_event (EvDebug false (T tag) data) w) Hobs)
    as (w1 & Hf & Hs1 & Hi1 & Hw1 & Hr1 & Hp1 & Hc1 & Hn1).
  unfold bind at 1. rewrite Hf.
  unfold record_error, bind at 1. unfold bind at 1, modify_store at 1, modify at 1.
  unfold emit at 1, modify at 1.
  set (w2 := log_event _ (with_store _ w1)).
  destruct (update_quiet_returns host (dispatch host (S (S fuel))) fuel w2 Hq)
    as (w' & Hu & Hc & Hidle & Hbusy).
  pose proof (update_quiet_frame host (dispatch host (S (S fuel))) (S (S fuel))
                w2 (Hq _)) as (Hs & Hi & Hw).
  unfold store_update. rewrite Hu in *. cbn [snd] in *.
  exists w'. split; [reflexivity |].
  split; [rewrite Hs; unfold w2; cbn [store log_event with_store]; now rewrite Hs1 |].
  split; [rewrite Hi; exact Hi1 |]. split; [rewrite Hw; exact Hw1 |].
  change (update_calls w2) with (update_calls w1) in Hc.
  change (renders w2) with (renders w1) in Hidle.
  change (isRendering w2) with (isRendering w1) in Hidle, Hbusy.
  change (update_calls (log_event (EvDebug false (T tag) data) w))
    with (update_calls w) in Hc1.
  change (renders (log_event (EvDebug false (T tag) data) w))
    with (renders w) in Hn1.
  cbn [isRendering log_event] in Hr1.
  split; [lia |]. split.
  - intros H. rewrite <- Hr1 in H. destruct (Hidle H). lia.
  - intros H. rewrite <- Hr1 in H. auto.
Qed.

Lemma done_with_error_only_records_error_witness :
  get_prop failed_get "err"
    = Ret (VObj [("message", VStr "Not found"); ("code", VStr "ENOTFOUND")]) /\
  exists w',
    dispatch sample_host 3 (T API_SNIPPET_GET_DONE) failed_get fetching_world
      = (Ret tt, w') /\
    store w'
      = push_error {| err_message := VStr "Not found"; err_code := VStr "ENOTFOUND" |}
          (add_fetchCount (-1) (store fetching_world)).
Proof.
  split; [reflexivity |].
  destruct (done_with_error_only_records_error sample_host 0 API_SNIPPET_GET_DONE
              failed_get
              (VObj [("message", VStr "Not found"); ("code", VStr "ENOTFOUND")])
              fetching_world eq_refl eq_refl eq_refl
              (fun observer st (H : onFetchDone sample_host = Some observer) =>
                 match H in (_ = o)
                   return (match o with Some _ => quiet (observer st) = true
                                      | None => True end)
                 with eq_refl => I end)
              (fun st => eq_refl))
    as (w' & Hrun & Hstore & _).
  exists w'. split; [exact Hrun | exact Hstore].
Defined.

(** C7.  An action [{ type, data }] that survives [JSON.stringify] and
    [JSON.parse], saved with [addPendingDispatch]: [RUN_PENDING_DISPATCH]
    dispatches exactly [type] and [data] and then calls [update]; the
    dispatch starts in a state whose slot is already empty; and if it
    returns without the action having been saved again, a second
    [RUN_PENDING_DISPATCH] finds the slot empty and returns at once. *)
Theorem pending_dispatch_roundtrip (host : Host) (fuel : nat)
    (type data d : JsVal) (w0 w : World) :
  addPendingDispatch host type data w0 = (Ret tt, w) ->
  JSON_parse host (JSON_stringify host (pending_action type data))
    = Some (pending_action type data) ->
  pending_slot w = Some (JSON_stringify host (pending_action type data)) /\
  dispatch host (S fuel) (T RUN_PENDING_DISPATCH) d w =
    (dispatch host fuel type data ;; store_update host fuel)
      (clear_pending (log_event (EvDebug false (T RUN_PENDING_DISPATCH) d) w)) /\
  pending_slot
    (clear_pending (log_event (EvDebug false (T RUN_PENDING_DISPATCH) d) w))
    = None /\
  (forall w2 fuel' d',
     dispatch host (S fuel) (T RUN_PENDING_DISPATCH) d w = (Ret tt, w2) ->
     saves w2 = saves w ->
     pending_slot w2 = None /\
     dispatch host (S fuel') (T RUN_PENDING_DISPATCH) d' w2 =
       (Ret tt, log_event (EvDebug false (T RUN_PENDING_DISPATCH) d') w2)).
Proof.
  intros Hsave Hjson.
  set (cleared :=
         clear_pending (log_event (EvDebug false (T RUN_PENDING_DISPATCH) d) w)).
  assert (w = save_pending (JSON_stringify host (pending_action type data)) w0)
    as Hw.
  { unfold addPendingDispatch, bind, get_window, modify in Hsave.
    destruct (window w0); [| discriminate]. now inversion Hsave. }
  assert (window w = Some {| pendingDispatch :=
            Some (JSON_stringify host (pending_action type data)) |}) as Hwin
    by (now subst w).
  assert (dispatch host (S fuel) (T RUN_PENDING_DISPATCH) d w =
          (dispatch host fuel type data ;; store_update host fuel) cleared) as Heq.
  { rewrite (run_pending_full _ _ _ _ _ Hwin). rewrite Hjson. reflexivity. }
  split; [now subst w |]. split; [exact Heq |]. split; [reflexivity |].
  intros w2 fuel' d' Hrun Hsaves.
  rewrite Heq in Hrun.
  assert (bridge_step cleared w2) as (Hwin2 & _ & Hslot).
  { replace w2
      with (snd ((dispatch host fuel type data ;; store_update host fuel) cleared))
      by now rewrite Hrun.
    apply (sound_bind bridge_step bridge_trans).
    - apply dispatch_bridge.
    - intros _. apply store_update_bridge. }
  specialize (Hwin2 ltac:(discriminate)). specialize (Hslot Hsaves eq_refl).
  split; [exact Hslot |].
  apply run_pending_empty.
  unfold pending_slot in Hslot. destruct (window w2) as [[slot] |]; [| congruence].
  simpl in Hslot. now subst slot.
Qed.

(** A vote saved before the login and replayed after it. *)
Lemma pending_dispatch_roundtrip_witness :
  addPendingDispatch sample_host (T API_SNIPPET_VOTE) (VObj [("id", VStr "s1")])
    (createStore empty_window) = (Ret tt, saved_world) /\
  JSON_parse sample_host
    (JSON_stringify sample_host
       (pending_action (T API_SNIPPET_VOTE) (VObj [("id", VStr "s1")])))
    = Some (pending_action (T API_SNIPPET_VOTE) (VObj [("id", VStr "s1")])) /\
  dispatch sample_host 3 (T RUN_PENDING_DISPATCH) VUndefined saved_world =
    (dispatch sample_host 2 (T API_SNIPPET_VOTE) (VObj [("id", VStr "s1")]) ;;
     store_update sample_host 2)
      (clear_pending
         (log_event (EvDebug false (T RUN_PENDING_DISPATCH) VUndefined) saved_world)) /\
  pending_slot
    (snd (dispatch sample_host 3 (T RUN_PENDING_DISPATCH) VUndefined saved_world))
    = None.
Proof.
  assert (H1 : addPendingDispatch sample_host (T API_SNIPPET_VOTE)
                 (VObj [("id", VStr "s1")]) (createStore empty_window)
               = (Ret tt, saved_world)) by (vm_compute; reflexivity).
  assert (H2 : JSON_parse sample_host
                 (JSON_stringify sample_host
                    (pending_action (T API_SNIPPET_VOTE) (VObj [("id", VStr "s1")])))
               = Some (pending_action (T API_SNIPPET_VOTE)
                         (VObj [("id", VStr "s1")])))
    by (vm_compute; reflexivity).
  destruct (pending_dispatch_roundtrip sample_host 2 (T API_SNIPPET_VOTE)
              (VObj [("id", VStr "s1")]) VUndefined (createStore empty_window)
              saved_world H1 H2)
    as (_ & Heq & _ & Hsecond).
  split; [exact H1 |]. split; [exact H2 |]. split; [exact Heq |].
  assert (H3 : dispatch sample_host 3 (T RUN_PENDING_DISPATCH) VUndefined saved_world
               = (Ret tt,
                  snd (dispatch sample_host 3 (T RUN_PENDING_DISPATCH) VUndefined
                         saved_world)))
    by (vm_compute; reflexivity).
  assert (H4 : saves (snd (dispatch sample_host 3 (T RUN_PENDING_DISPATCH)
                             VUndefined saved_world)) = saves saved_world)
    by (vm_compute; reflexivity).
  exact (proj1 (Hsecond _ 0%nat VUndefined H3 H4)).
Defined.

(** C8.  A type that is none of the labels of the [switch]: [dispatch]
    throws [new Error('Unrecognized dispatch type "..."')], and the state is
    as before but for the debug line. *)
Theorem unrecognized_type_throws (host : Host) (fuel : nat) (type data : JsVal)
    (w : World) :
  (forall t, type <> T t) ->
  dispatch host (S fuel) type data w =
  (Throw (unrecognized host type), log_event (EvDebug false type data) w).
Proof.
  intros H. rewrite dispatch_S. unfold dispatch_body.
  rewrite (classify_None _ H).
  assert (strict_eq type (T APP_RESIZE) = false) as ->.
  { destruct type; try reflexivity. simpl. apply String.eqb_neq.
    intros ->. now apply (H APP_RESIZE). }
  reflexivity.
Qed.

Lemma unrecognized_type_throws_witness :
  (forall t, VStr "SNIPPET_DELETE" <> T t) /\
  dispatch sample_host 1 (VStr "SNIPPET_DELETE") VNull (createStore empty_window) =
  (Throw (JsError ("Unrecognized dispatch type " ++ dquote ++ "SNIPPET_DELETE"
                   ++ dquote)),
   log_event (EvDebug false (VStr "SNIPPET_DELETE") VNull) (createStore empty_window)).
Proof.
  assert (H : forall t, VStr "SNIPPET_DELETE" <> T t)
    by (intros t; destruct t; discriminate).
  split; [exact H |].
  exact (unrecognized_type_throws sample_host 0 (VStr "SNIPPET_DELETE") VNull
           (createStore empty_window) H).
Defined.

(** C9.  In a state whose [store.location] has a [name], [done] sends the
    response with status 404 if the name is the string [not-found] and 200
    otherwise.  That is the response of the handler when the counter is zero
    after its dispatch of [LOCATION_REPLACE], and of the tick that
    [onFetchEnd] scheduled. *)
Theorem response_status_of_location (host : Host) (w : World) (name : JsVal) :
  get_prop (location (store w)) "name" = Ret name ->
  done w
    = (Ret tt,
       log_event
         (EvRespond (if strict_eq name (VStr "not-found") then 404 else 200)
            "index" (title (app (store w)))) w) /\
  (name = VStr "not-found" ->
   (if strict_eq name (VStr "not-found") then 404 else 200) = 404) /\
  (name <> VStr "not-found" ->
   (if strict_eq name (VStr "not-found") then 404 else 200) = 200) /\
  (forall fuel req_url,
     dispatch (router_host host) fuel (T LOCATION_REPLACE) req_url (createStore None)
       = (Ret tt, w) ->
     router_get host fuel req_url
       = if fetchCount (app (store w)) =? 0 then done w else (Ret tt, w)) /\
  (forall rest w0,
     ticks w0 = TDone :: rest -> with_ticks rest w0 = w ->
     run_tick w0 = done w).
Proof.
  intros Hn.
  split; [unfold done, bind, read, lift; rewrite Hn; reflexivity |].
  split; [| split; [| split]].
  - intros ->. reflexivity.
  - intros Hne.
    destruct (strict_eq name (VStr "not-found")) eqn:E; [| reflexivity].
    apply strict_eq_str in E. contradiction.
  - intros fuel req_url Hrun. unfold router_get. unfold bind at 1. rewrite Hrun.
    unfold bind, read. destruct (fetchCount (app (store w)) =? 0); reflexivity.
  - intros rest w0 Ht Hw. unfold run_tick, bind, read. rewrite Ht.
    unfold modify. rewrite Hw. reflexivity.
Qed.

Lemma response_status_of_location_witness :
  get_prop (location (store not_found_world)) "name" = Ret (VStr "not-found") /\
  done not_found_world
    = (Ret tt,
       log_event (EvRespond 404 "index" (title (app (store not_found_world))))
         not_found_world) /\
  router_get sample_server 3 (VStr "/nope") = done not_found_world.
Proof.
  assert (H : get_prop (location (store not_found_world)) "name"
              = Ret (VStr "not-found")) by (vm_compute; reflexivity).
  destruct (response_status_of_location sample_server not_found_world
              (VStr "not-found") H) as (Hd & _ & _ & Hget & _).
  split; [exact H |]. split; [exact Hd |].
  assert (Hrun : dispatch (router_host sample_server) 3 (T LOCATION_REPLACE)
                   (VStr "/nope") (createStore None) = (Ret tt, not_found_world))
    by (vm_compute; reflexivity).
  rewrite (Hget 3%nat (VStr "/nope") Hrun). reflexivity.
Defined.

(** C10.  [LOCATION_PUSH] and [LOCATION_REPLACE] compare the URL with
    [store.location.url]: if they are equal the dispatch returns with the
    state as before but for the debug line, so the routing object is not
    called and no render is requested; otherwise it calls the routing
    object.  For a URL that is the same string the dispatch does nothing. *)
Theorem same_url_is_noop (host : Host) (fuel : nat) (tag : Tag)
    (data current : JsVal) (w : World) :
  tag = LOCATION_PUSH \/ tag = LOCATION_REPLACE ->
  get_prop (location (store w)) "url" = Ret current ->
  dispatch host (S fuel) (T tag) data w =
    (if strict_eq data current
     then (Ret tt, log_event (EvDebug false (T tag) data) w)
     else (emit (loc_event tag data) ;;
           notify_location (dispatch host fuel) (loc_answer host tag data))
            (log_event (EvDebug false (T tag) data) w)) /\
  (forall url : string,
     data = VStr url -> current = VStr url ->
     dispatch host (S fuel) (T tag) data w
       = (Ret tt, log_event (EvDebug false (T tag) data) w)).
Proof.
  intros Htag Hcur.
  assert (dispatch host (S fuel) (T tag) data w =
    (if strict_eq data current
     then (Ret tt, log_event (EvDebug false (T tag) data) w)
     else (emit (loc_event tag data) ;;
           notify_location (dispatch host fuel) (loc_answer host tag data))
            (log_event (EvDebug false (T tag) data) w))) as H.
  { destruct Htag as [-> | ->]; rewrite dispatch_tag;
      unfold dispatch_case, call_loc_push, call_loc_replace;
      unfold bind at 1, read at 1; cbn [store log_event];
      unfold bind at 1, lift at 1; rewrite Hcur;
      destruct (strict_eq data current); reflexivity. }
  split; [exact H |].
  intros url -> ->. rewrite H. simpl. now rewrite String.eqb_refl.
Qed.

Lemma same_url_is_noop_witness :
  (LOCATION_PUSH = LOCATION_PUSH \/ LOCATION_PUSH = LOCATION_REPLACE) /\
  get_prop (location (store home_world)) "url" = Ret (VStr "/") /\
  dispatch sample_host 1 (T LOCATION_PUSH) (VStr "/") home_world =
    (Ret tt, log_event (EvDebug false (T LOCATION_PUSH) (VStr "/")) home_world).
Proof.
  assert (H : get_prop (location (store home_world)) "url" = Ret (VStr "/"))
    by (vm_compute; reflexivity).
  split; [left; reflexivity |]. split; [exact H |].
  exact (proj2 (same_url_is_noop sample_host 0 LOCATION_PUSH (VStr "/") (VStr "/")
                  home_world (or_introl eq_refl) H) "/" eq_refl eq_refl).
Defined.

(** * Further properties *)

(** ** Relations kept by every write of the store *)

Section StoreWrites.

Variable R : World -> World -> Prop.
Hypothesis R_refl : forall w, R w w.
Hypothesis R_trans : forall w1 w2 w3, R w1 w2 -> R w2 w3 -> R w1 w3.
Hypothesis R_world : forall w w', store w' = store w -> R w w'.
Hypothesis R_write : forall f w, store_write f -> R w (with_store f w).

Variable host : Host.

Ltac write_step Hd Hu :=
  lazymatch goal with
  | |- sound _ (bind _ _) => apply (sound_bind R R_trans); [| intros ?]
  | |- sound _ (ret _) => apply (sound_ret R R_refl)
  | |- sound _ (throw _) => apply (sound_throw R R_refl)
  | |- sound _ (lift _) => apply (sound_lift R R_refl)
  | |- sound _ (read _) => apply (sound_read R R_refl)
  | |- sound _ get_window => apply (sound_get_window R R_refl)
  | |- sound _ (modify_store _) =>
      apply sound_modify; intros ?; apply R_write; constructor
  | |- sound _ (emit _) => apply sound_modify; intros ?; now apply R_world
  | |- sound _ (modify _) => apply sound_modify; intros ?; now apply R_world
  | |- sound _ (update _ _ _) => apply Hu
  | |- sound _ (run_callback _ _) =>
      apply (sound_run_callback R R_refl R_trans); [intros; now apply R_world | apply Hd]
  | |- sound _ (notify_location _ _) => unfold notify_location
  | |- sound _ (for_each _ _) => apply (sound_for_each R R_refl R_trans); intros ?
  | |- sound _ (if ?b then _ else _) => destruct b
  | |- sound _ (match ?x with _ => _ end) => destruct x
  | |- sound _ _ => apply Hd
  end.

Lemma writes_update (drec : JsVal -> JsVal -> M unit) (fuel : nat) :
  (forall t d, sound R (drec t d)) -> sound R (update host drec fuel).
Proof.
  intros Hd. induction fuel as [| fuel IH]; cbn [update];
    repeat first [exact IH | write_step Hd IH].
Qed.

Lemma writes_dispatch (fuel : nat) (type data : JsVal) :
  sound R (dispatch host fuel type data).
Proof.
  revert type data. induction fuel as [| fuel IH]; intros type data.
  - intros w. apply R_refl.
  - rewrite dispatch_S. unfold dispatch_body.
    pose proof (writes_update (dispatch host fuel) fuel IH) as Hu.
    apply (sound_bind R R_trans); [apply sound_modify; intros ?; now apply R_world |].
    intros _. destruct (classify type) as [tag |]; [| apply (sound_throw R R_refl)].
    destruct tag;
      unfold dispatch_case, done_case, fetchStart, fetchDone, addError, addSnippet,
        addSearch, call_api, call_loc_push, call_loc_replace, call_loc_back,
        addPendingDispatch;
      repeat write_step IH Hu.
Qed.

End StoreWrites.

(** The callback of an API call keeps what every dispatch keeps. *)
Lemma api_answer_sound (R : World -> World -> Prop) (host : Host) (fuel i : nat)
    (err result : JsVal) :
  (forall w, R w w) ->
  (forall w1 w2 w3, R w1 w2 -> R w2 w3 -> R w1 w3) ->
  (forall w w', store w' = store w -> R w w') ->
  (forall type data, sound R (dispatch host fuel type data)) ->
  sound R (api_answer host fuel i err result).
Proof.
  intros Hrefl Htrans Hworld Hd. unfold api_answer.
  apply (sound_bind R Htrans); [apply (sound_read R Hrefl) |].
  intros calls. destruct (calls !! i) as [[ep arg] |]; [| apply (sound_ret R Hrefl)].
  apply (sound_bind R Htrans); [| intros _; apply Hd].
  apply sound_modify. intros w. now apply Hworld.
Qed.

(** ** What no dispatch undoes *)

Lemma errors_grow_refl w : errors_grow w w.
Proof. exists []. now rewrite app_nil_r. Qed.

Lemma errors_grow_trans w1 w2 w3 :
  errors_grow w1 w2 -> errors_grow w2 w3 -> errors_grow w1 w3.
Proof.
  intros [a Ha] [b Hb]. exists (a ++ b)%list. rewrite Hb, Ha. now rewrite app_assoc.
Qed.

Lemma errors_grow_world w w' : store w' = store w -> errors_grow w w'.
Proof. intros H. exists []. rewrite H. now rewrite app_nil_r. Qed.

Lemma errors_grow_write f w : store_write f -> errors_grow w (with_store f w).
Proof.
  intros H. destruct H; simpl; try (exists []; simpl; now rewrite app_nil_r).
  now exists [r].
Qed.

(** X1.  Whatever is dispatched, by whomever, and however the dispatch ends,
    [store.errors] afterwards is the old list followed by new entries:
    nothing is removed or reordered.  The same holds for the callback of an
    API call. *)
Theorem errors_only_grow (host : Host) (fuel i : nat)
    (type data err result : JsVal) (w : World) :
  (exists new,
     errors (store (snd (dispatch host fuel type data w)))
     = (errors (store w) ++ new)%list) /\
  (exists new,
     errors (store (snd (api_answer host fuel i err result w)))
     = (errors (store w) ++ new)%list).
Proof.
  pose proof (writes_dispatch errors_grow errors_grow_refl errors_grow_trans
                errors_grow_world errors_grow_write host) as Hd.
  split; [apply Hd |].
  apply (api_answer_sound errors_grow host fuel i err result errors_grow_refl
           errors_grow_trans errors_grow_world (Hd fuel)).
Qed.

Lemma keys_kept_refl w : keys_kept w w.
Proof. split; reflexivity. Qed.

Lemma keys_kept_trans w1 w2 w3 :
  keys_kept w1 w2 -> keys_kept w2 w3 -> keys_kept w1 w3.
Proof. intros [a b] [c d]. split; set_solver. Qed.

Lemma keys_kept_world w w' : store w' = store w -> keys_kept w w'.
Proof. intros H. unfold keys_kept. rewrite H. split; reflexivity. Qed.

Lemma keys_kept_write f w : store_write f -> keys_kept w (with_store f w).
Proof.
  intros H. destruct H; split; simpl; try reflexivity;
    rewrite dom_insert_L; set_solver.
Qed.

(** X2.  No dispatch and no answer of the API collaborator removes a key
    from [store.snippets] or from [store.searches]. *)
Theorem entities_never_deleted (host : Host) (fuel i : nat)
    (type data err result : JsVal) (w : World) :
  dom (snippets (store w))
    ⊆ dom (snippets (store (snd (dispatch host fuel type data w)))) /\
  dom (searches (store w))
    ⊆ dom (searches (store (snd (dispatch host fuel type data w)))) /\
  dom (snippets (store w))
    ⊆ dom (snippets (store (snd (api_answer host fuel i err result w)))) /\
  dom (searches (store w))
    ⊆ dom (searches (store (snd (api_answer host fuel i err result w)))).
Proof.
  pose proof (writes_dispatch keys_kept keys_kept_refl keys_kept_trans
                keys_kept_world keys_kept_write host) as Hd.
  destruct (Hd fuel type data w) as [Hs Hq].
  destruct (api_answer_sound keys_kept host fuel i err result keys_kept_refl
              keys_kept_trans keys_kept_world (Hd fuel) w) as [Hs' Hq'].
  repeat split; assumption.
Qed.

Lemma identity_kept_refl w : identity_kept w w.
Proof. split; auto. Qed.

Lemma identity_kept_trans w1 w2 w3 :
  identity_kept w1 w2 -> identity_kept w2 w3 -> identity_kept w1 w3.
Proof.
  intros [a [b | b]] [c [d | d]]; split; try congruence;
    first [left; congruence | right; congruence].
Qed.

Lemma identity_kept_world w w' : store w' = store w -> identity_kept w w'.
Proof. intros H. unfold identity_kept. rewrite H. split; auto. Qed.

Lemma identity_kept_write f w : store_write f -> identity_kept w (with_store f w).
Proof. intros H. destruct H; split; simpl; auto. Qed.

(** X3.  No dispatch assigns [store.userName], and the only value a
    dispatch gives [store.fatalError] is [null]. *)
Theorem userName_and_fatalError_never_set (host : Host) (fuel i : nat)
    (type data err result : JsVal) (w : World) :
  userName (store (snd (dispatch host fuel type data w))) = userName (store w) /\
  (fatalError (store (snd (dispatch host fuel type data w))) = fatalError (store w)
   \/ fatalError (store (snd (dispatch host fuel type data w))) = VNull) /\
  userName (store (snd (api_answer host fuel i err result w))) = userName (store w).
Proof.
  pose proof (writes_dispatch identity_kept identity_kept_refl identity_kept_trans
                identity_kept_world identity_kept_write host) as Hd.
  destruct (Hd fuel type data w) as [Hu Hf].
  destruct (api_answer_sound identity_kept host fuel i err result identity_kept_refl
              identity_kept_trans identity_kept_world (Hd fuel) w) as [Hu' _].
  repeat split; assumption.
Qed.

(** ** The scheduler at its edges *)

(** X4.  [update] has no [finally]: when the render function throws,
    [update] throws the same exception with [isRendering] left set.  From
    then on no dispatch enters the render function again, and every call of
    [update] only sets [isUpdatePending]. *)
Theorem throwing_render_wedges_scheduler (host : Host) (n : nat) (w w1 : World)
    (e : Exn) :
  isRendering w = false ->
  run_callback (dispatch host (S n)) (render host (store w)) (pass_start w)
    = (Throw e, w1) ->
  store_update host (S n) w = (Throw e, w1) /\
  isRendering w1 = true /\
  (forall fuel type data,
     isRendering (snd (dispatch host fuel type data w1)) = true /\
     renders (snd (dispatch host fuel type data w1)) = renders w1) /\
  (forall fuel,
     store_update host fuel w1
     = (Ret tt, with_isUpdatePending true (log_event EvUpdateCall w1))).
Proof.
  intros Hr Hpass.
  destruct (sched_pass_start w Hr) as (_ & _ & _ & Hr0 & _).
  pose proof (callback_sched (dispatch host (S n)) (dispatch_sched host (S n))
                (render host (store w)) (pass_start w)) as (_ & _ & Hx).
  rewrite Hpass in Hx. cbn [snd] in Hx. destruct (Hx Hr0) as (Hr1 & _).
  split; [unfold store_update; rewrite update_idle_S by assumption; now rewrite Hpass |].
  split; [exact Hr1 |]. split.
  - intros fuel type data.
    destruct (dispatch_sched host fuel type data w1) as (_ & _ & H).
    destruct (H Hr1) as (H1 & H2 & _). now split.
  - intros fuel. unfold store_update. now apply update_rendering.
Qed.

Lemma throwing_render_wedges_scheduler_witness :
  isRendering home_world = false /\
  run_callback (dispatch broken_host 1) (render broken_host (store home_world))
    (pass_start home_world)
  = (Throw (unrecognized broken_host (VStr "SNIPPET_DELETE")),
     log_event (EvDebug false (VStr "SNIPPET_DELETE") VNull) (pass_start home_world)) /\
  store_update broken_host 1 home_world
  = (Throw (unrecognized broken_host (VStr "SNIPPET_DELETE")),
     log_event (EvDebug false (VStr "SNIPPET_DELETE") VNull) (pass_start home_world)).
Proof.
  assert (H : run_callback (dispatch broken_host 1)
                (render broken_host (store home_world)) (pass_start home_world)
              = (Throw (unrecognized broken_host (VStr "SNIPPET_DELETE")),
                 log_event (EvDebug false (VStr "SNIPPET_DELETE") VNull)
                   (pass_start home_world)))
    by (vm_compute; reflexivity).
  split; [reflexivity |]. split; [exact H |].
  exact (proj1 (throwing_render_wedges_scheduler broken_host 0 home_world _ _
                  eq_refl H)).
Defined.

(** [single_pass] on the home page. *)
Lemma single_pass_witness :
  run_callback (dispatch sample_host 1) (render sample_host (store home_world))
    (pass_start home_world) = (Ret tt, pass_start home_world) /\
  store_update sample_host 1 home_world = (Ret tt, end_render (pass_start home_world)) /\
  renders (end_render (pass_start home_world)) = S (renders home_world).
Proof.
  assert (H : run_callback (dispatch sample_host 1)
                (render sample_host (store home_world)) (pass_start home_world)
              = (Ret tt, pass_start home_world)) by (vm_compute; reflexivity).
  split; [exact H |].
  exact (single_pass sample_host 0 home_world (pass_start home_world)
           eq_refl eq_refl H eq_refl).
Defined.

(** X6.  The guard on [isRendering] stops the recursion inside a pass, not
    the one after it: if every pass that returns has requested another,
    [update] called outside a render does not return, whatever the bound. *)
Theorem update_never_returns_while_passes_request (host : Host) :
  (forall m w0 w1,
     isRendering w0 = false ->
     run_callback (dispatch host m) (render host (store w0)) (pass_start w0)
       = (Ret tt, w1) ->
     isUpdatePending w1 = true) ->
  forall fuel w,
    isRendering w = false ->
    fst (store_update host fuel w) <> Ret tt.
Proof.
  intros H fuel. unfold store_update.
  generalize (H fuel). generalize (dispatch host fuel). intros drec Hd.
  induction fuel as [| fuel IH]; intros w Hr.
  - rewrite update_idle_O by assumption. discriminate.
  - rewrite update_idle_S by assumption.
    destruct (run_callback drec (render host (store w)) (pass_start w))
      as [[[] | e |] w2] eqn:E; [| discriminate | discriminate].
    rewrite (Hd w w2 Hr E). now apply IH.
Qed.

Lemma update_never_returns_while_passes_request_witness :
  (forall m w0 w1,
     isRendering w0 = false ->
     run_callback (dispatch restless_host m) (render restless_host (store w0))
       (pass_start w0) = (Ret tt, w1) ->
     isUpdatePending w1 = true) /\
  fst (store_update restless_host 50 home_world) <> Ret tt.
Proof.
  assert (H : forall m w0 w1,
     isRendering w0 = false ->
     run_callback (dispatch restless_host m) (render restless_host (store w0))
       (pass_start w0) = (Ret tt, w1) ->
     isUpdatePending w1 = true).
  { intros m w0 w1 _ Hrun.
    cbn [render restless_host with_render restless_render run_callback] in Hrun.
    unfold bind at 1 in Hrun. destruct m as [| m]; [discriminate Hrun |].
    rewrite dispatch_tag in Hrun.
    unfold dispatch_case in Hrun.
    unfold bind at 1, modify_store at 1, modify at 1 in Hrun.
    rewrite update_rendering in Hrun by reflexivity.
    cbn [run_callback ret] in Hrun. inversion Hrun. reflexivity. }
  split; [exact H |].
  exact (update_never_returns_while_passes_request restless_host H 50 home_world
           eq_refl).
Defined.

(** ** The counter and the slot at their edges *)

Lemma sample_observer_quiet (observer : Store -> Callback) (st : Store) :
  onFetchDone sample_host = Some observer -> quiet (observer st) = true.
Proof. discriminate. Qed.

(** [start_then_answer_restores] for a snippet fetched by a logged-in user. *)
Lemma start_then_answer_restores_witness :
  start_endpoint API_SNIPPET_ADD = Some SnippetAdd /\
  nullish (userName (store signed_in_world)) = false /\
  fetchCount (app (store (snd (dispatch sample_host 3 (T API_SNIPPET_ADD)
                                 new_snippet signed_in_world)))) = 1 /\
  fetchCount (app (store (snd (
      api_answer sample_host 4 0 VNull (VObj [("id", VStr "s9")])
        (snd (dispatch sample_host 3 (T API_SNIPPET_ADD) new_snippet
                signed_in_world)))))) = 0.
Proof.
  destruct (start_then_answer_restores sample_host (fun _ => eq_refl) 2 3
              API_SNIPPET_ADD SnippetAdd new_snippet VNull
              (VObj [("id", VStr "s9")]) signed_in_world
              sample_observer_quiet eq_refl eq_refl) as (H1 & H2 & _).
  split; [reflexivity |]. split; [reflexivity |].
  split; [exact H1 | exact H2].
Defined.

(** X8.  [fetchDone] does not look at the counter: a [_DONE] action
    dispatched while the counter is zero or less, whatever its payload,
    leaves it one lower and negative. *)
Theorem unmatched_done_goes_negative (host : Host) (fuel : nat) (tag : Tag)
    (data : JsVal) (w : World) :
  (forall st, quiet (render host st) = true) ->
  (forall observer st,
     onFetchDone host = Some observer -> quiet (observer st) = true) ->
  is_done_tag tag = true ->
  fetchCount (app (store w)) <= 0 ->
  fetchCount (app (store (snd (dispatch host (S fuel) (T tag) data w))))
    = fetchCount (app (store w)) - 1 /\
  fetchCount (app (store (snd (dispatch host (S fuel) (T tag) data w)))) < 0.
Proof.
  intros Hq Hobs Htag Hzero.
  destruct (done_count host Hq fuel tag data w Hobs Htag) as (Hc & _).
  split; [exact Hc | lia].
Qed.

Lemma unmatched_done_goes_negative_witness :
  fetchCount (app (store (createStore empty_window))) <= 0 /\
  fetchCount (app (store (snd (dispatch sample_host 3 (T API_DOC_DONE)
      (VObj [("err", VNull); ("doc", VStr "text")]) (createStore empty_window)))))
  = -1.
Proof.
  assert (H : fetchCount (app (store (createStore empty_window))) <= 0)
    by (vm_compute; discriminate).
  split; [exact H |].
  exact (proj1 (unmatched_done_goes_negative sample_host 2 API_DOC_DONE
                  (VObj [("err", VNull); ("doc", VStr "text")])
                  (createStore empty_window) (fun _ => eq_refl)
                  sample_observer_quiet eq_refl H)).
Defined.

(** X9.  Where there is no [window], as on the server,
    [RUN_PENDING_DISPATCH] throws a [ReferenceError] with the state as before
    but for the debug line, and [API_SNIPPET_ADD] without a user name throws
    it after [fetchStart()]: the counter stays incremented, no error is
    pushed and [update] is not called. *)
Theorem bridge_needs_window (host : Host) (fuel : nat) (data d : JsVal)
    (w : World) :
  window w = None ->
  nullish (userName (store w)) = true ->
  dispatch host (S fuel) (T RUN_PENDING_DISPATCH) d w
    = (Throw ReferenceError,
       log_event (EvDebug false (T RUN_PENDING_DISPATCH) d) w) /\
  dispatch host (S fuel) (T API_SNIPPET_ADD) data w
    = (Throw ReferenceError,
       with_store (add_fetchCount 1)
         (log_event (EvDebug false (T API_SNIPPET_ADD) data) w)).
Proof.
  intros Hw Hu. split; rewrite dispatch_tag; unfold dispatch_case.
  - unfold bind, get_window. cbn [window log_event]. now rewrite Hw.
  - unfold fetchStart. unfold bind at 1, modify_store at 1, modify at 1.
    unfold bind at 1, read at 1.
    cbn [store with_store log_event userName set_app]. rewrite Hu.
    unfold bind at 1. unfold addPendingDispatch, bind, get_window.
    cbn [window with_store log_event]. now rewrite Hw.
Qed.

Lemma bridge_needs_window_witness :
  window (createStore None) = None /\
  nullish (userName (store (createStore None))) = true /\
  fst (dispatch sample_server 1 (T API_SNIPPET_ADD) new_snippet (createStore None))
    = Throw ReferenceError /\
  fetchCount (app (store (snd (dispatch sample_server 1 (T API_SNIPPET_ADD)
                                 new_snippet (createStore None))))) = 1.
Proof.
  destruct (bridge_needs_window sample_server 0 new_snippet VUndefined
              (createStore None) eq_refl eq_refl) as (_ & H).
  split; [reflexivity |]. split; [reflexivity |].
  rewrite H. split; reflexivity.
Defined.

(** X10.  The slot holds one action: a second [addPendingDispatch]
    overwrites the first, and [RUN_PENDING_DISPATCH] replays the second
    only. *)
Theorem last_save_wins (host : Host) (fuel : nat)
    (type1 data1 type2 data2 d : JsVal) (w0 w1 w2 : World) :
  addPendingDispatch host type1 data1 w0 = (Ret tt, w1) ->
  addPendingDispatch host type2 data2 w1 = (Ret tt, w2) ->
  JSON_parse host (JSON_stringify host (pending_action type2 data2))
    = Some (pending_action type2 data2) ->
  pending_slot w2 = Some (JSON_stringify host (pending_action type2 data2)) /\
  saves w2 = S (S (saves w0)) /\
  dispatch host (S fuel) (T RUN_PENDING_DISPATCH) d w2 =
    (dispatch host fuel type2 data2 ;; store_update host fuel)
      (clear_pending (log_event (EvDebug false (T RUN_PENDING_DISPATCH) d) w2)).
Proof.
  intros H1 H2 Hjson.
  unfold addPendingDispatch, bind, get_window, modify in H1, H2.
  destruct (window w0); [| discriminate]. inversion H1; subst w1; clear H1.
  cbn [window save_pending log_event with_window] in H2.
  inversion H2; subst w2; clear H2.
  split; [reflexivity |]. split; [reflexivity |].
  match goal with |- dispatch _ _ _ _ ?x = _ =>
    rewrite (run_pending_full host fuel d x
               (JSON_stringify host (pending_action type2 data2)) eq_refl)
  end.
  rewrite Hjson. reflexivity.
Qed.

Lemma last_save_wins_witness :
  addPendingDispatch sample_host (T API_SNIPPET_VOTE) (VObj [("id", VStr "s1")])
    (createStore empty_window) = (Ret tt, saved_world) /\
  pending_slot
    (snd (addPendingDispatch sample_host (T API_SNIPPET_ADD) new_snippet saved_world))
  = Some (JSON_stringify sample_host (pending_action (T API_SNIPPET_ADD) new_snippet)).
Proof.
  assert (H1 : addPendingDispatch sample_host (T API_SNIPPET_VOTE)
                 (VObj [("id", VStr "s1")]) (createStore empty_window)
               = (Ret tt, saved_world)) by (vm_compute; reflexivity).
  assert (H2 : addPendingDispatch sample_host (T API_SNIPPET_ADD) new_snippet
                 saved_world
               = (Ret tt,
                  snd (addPendingDispatch sample_host (T API_SNIPPET_ADD)
                         new_snippet saved_world))) by (vm_compute; reflexivity).
  assert (H3 : JSON_parse sample_host
                 (JSON_stringify sample_host
                    (pending_action (T API_SNIPPET_ADD) new_snippet))
               = Some (pending_action (T API_SNIPPET_ADD) new_snippet))
    by (vm_compute; reflexivity).
  split; [exact H1 |].
  exact (proj1 (last_save_wins sample_host 0 _ _ _ _ VUndefined _ _ _ H1 H2 H3)).
Defined.

(** ** The results of the API calls *)

Lemma done_case_success host drec fuel data field k err result w w1 :
  fetchDone host drec w = (Ret tt, w1) ->
  get_prop data "err" = Ret err -> truthy err = false ->
  get_prop data field = Ret result ->
  done_case host drec fuel data field k w = k result w1.
Proof.
  intros Hf He Ht Hr. unfold done_case. unfold bind at 1. rewrite Hf.
  unfold bind, lift. rewrite He, Hr, Ht. reflexivity.
Qed.









(** X13.  A [_DONE] action whose payload is [null] or [undefined] throws a
    [TypeError] at the destructuring, after [fetchDone()]: the counter is
    decremented, nothing else in the store changes and [update] is not
    called. *)
Theorem done_without_payload_throws (host : Host) (fuel : nat) (tag : Tag)
    (data : JsVal) (w : World) :
  is_done_tag tag = true ->
  nullish data = true ->
  (forall observer st,
     onFetchDone host = Some observer -> quiet (observer st) = true) ->
  exists w',
    dispatch host (S fuel) (T tag) data w = (Throw TypeError, w') /\
    store w' = add_fetchCount (-1) (store w) /\
    update_calls w' = update_calls w.
Proof.
  intros Htag Hnull Hobs.
  destruct (fetchDone_quiet host (dispatch host fuel)
              (log_event (EvDebug false (T tag) data) w) Hobs)
    as (w1 & Hf & Hs1 & _ & _ & _ & _ & Hc & _).
  exists w1. split; [| split; [exact Hs1 | exact Hc]].
  assert (get_prop data "err" = Throw TypeError) as He
    by (destruct data; try discriminate Hnull; reflexivity).
  destruct tag; try discriminate Htag; rewrite dispatch_tag;
    change (strict_eq (T _) (T APP_RESIZE)) with false;
    unfold dispatch_case, done_case; unfold bind at 1; rewrite Hf;
    unfold bind, lift; rewrite He; reflexivity.
Qed.

(** X14.  [API_SNIPPET_ALL_DONE] without an error whose [snippets] is not
    an array throws a [TypeError] at [snippets.map], with the counter
    decremented and nothing else changed. *)
Theorem list_result_must_be_array (host : Host) (fuel : nat)
    (data err result : JsVal) (w : World) :
  get_prop data "err" = Ret err -> truthy err = false ->
  get_prop data "snippets" = Ret result ->
  (forall items, result <> VArr items) ->
  (forall observer st,
     onFetchDone host = Some observer -> quiet (observer st) = true) ->
  exists w',
    dispatch host (S fuel) (T API_SNIPPET_ALL_DONE) data w = (Throw TypeError, w') /\
    store w' = add_fetchCount (-1) (store w) /\
    update_calls w' = update_calls w.
Proof.
  intros Herr Ht Hs Hna Hobs.
  destruct (fetchDone_quiet host (dispatch host fuel)
              (log_event (EvDebug false (T API_SNIPPET_ALL_DONE) data) w) Hobs)
    as (w1 & Hf & Hs1 & _ & _ & _ & _ & Hc & _).
  exists w1. split; [| split; [exact Hs1 | exact Hc]].
  rewrite dispatch_tag. unfold dispatch_case.
  rewrite (done_case_success _ _ _ _ _ _ _ _ _ _ Hf Herr Ht Hs).
  destruct result; try reflexivity. now destruct (Hna items).
Qed.

(** ** The remaining actions *)

Lemma string_app_assoc (a b c : string) : ((a ++ b) ++ c = a ++ (b ++ c))%string.
Proof.
  induction a as [| ch a IH]; [reflexivity |].
  change (String ch ((a ++ b) ++ c) = String ch (a ++ (b ++ c)))%string.
  now rewrite IH.
Qed.

Lemma update_quiet_trace (host : Host) (drec : JsVal -> JsVal -> M unit)
    (fuel : nat) (p : Event -> bool) (w : World) :
  p EvUpdateCall = false -> p EvDebugUpdate = false ->
  p EvRenderBegin = false -> p EvRenderEnd = false ->
  quiet (render host (store w)) = true ->
  count_events p (snd (update host drec fuel w)) = count_events p w.
Proof.
  intros H1 H2 H3 H4. revert w.
  induction fuel as [| fuel IH]; intros w Hq;
    (destruct (isRendering w) eqn:Hr;
     [rewrite update_rendering by assumption; unfold count_events; simpl;
      now rewrite H1 |]).
  - rewrite update_idle_O by assumption. unfold count_events; simpl. now rewrite H1.
  - rewrite update_idle_S by assumption.
    rewrite (run_callback_quiet _ _ _ Hq).
    cbn [isUpdatePending with_ticks pass_start begin_render log_event
         with_isRendering].
    destruct (isUpdatePending w).
    + match goal with |- context [update host drec fuel ?x] =>
        rewrite (IH x Hq) end.
      unfold count_events; simpl. now rewrite H1, H2, H3, H4.
    + unfold count_events; simpl. now rewrite H1, H2, H3, H4.
Qed.


(** X16.  After [APP_TITLE] the title is a string that ends with
    [config.name]: the name alone for a falsy payload, and the payload, a
    dash and the name for a non-empty string. *)
Theorem title_carries_site_name (host : Host) (fuel : nat) (data : JsVal)
    (w : World) :
  (forall st, quiet (render host st) = true) ->
  exists w' page,
    dispatch host (S (S (S fuel))) (T APP_TITLE) data w = (Ret tt, w') /\
    store w' = set_app (set_title (VStr (page ++ config_name host))) (store w) /\
    (truthy data = false -> page = EmptyString) /\
    (forall s, data = VStr s -> s <> EmptyString -> page = s ++ " – ").
Proof.
  intros Hq.
  set (page := if truthy data then to_str host data ++ " – " else EmptyString).
  set (w1 := with_store (set_app (set_title (VStr (page ++ config_name host))))
               (log_event (EvDebug false (T APP_TITLE) data) w)).
  destruct (update_quiet_returns host (dispatch host (S (S fuel))) fuel w1 Hq)
    as (w' & Hu & _).
  pose proof (update_quiet_frame host (dispatch host (S (S fuel))) (S (S fuel))
                w1 (Hq _)) as (Hst & _).
  rewrite Hu in Hst. cbn [snd] in Hst.
  exists w', page. split; [| split; [exact Hst | split]].
  - rewrite dispatch_tag. unfold dispatch_case.
    unfold bind at 1, modify_store at 1, modify at 1.
    rewrite <- Hu. unfold w1, page.
    destruct (truthy data); [| reflexivity].
    now rewrite string_app_assoc.
  - intros Hf. unfold page. now rewrite Hf.
  - intros s -> Hs. unfold page. simpl.
    destruct (String.eqb_spec s EmptyString); [contradiction | reflexivity].
Qed.

(** X17.  [APP_RESIZE] with [null] or [undefined] throws a [TypeError]
    before it writes anything; with any other payload it sets [width] and
    [height] to the payload's properties, [undefined] where one is
    missing. *)
Theorem resize_reads_width_and_height (host : Host) (fuel : nat) (data : JsVal)
    (w : World) :
  (forall st, quiet (render host st) = true) ->
  if nullish data
  then dispatch host (S fuel) (T APP_RESIZE) data w
       = (Throw TypeError, log_event (EvDebug true (T APP_RESIZE) data) w)
  else exists w',
       dispatch host (S (S (S fuel))) (T APP_RESIZE) data w = (Ret tt, w') /\
       store w'
         = set_app (set_height (prop_of data "height"))
             (set_app (set_width (prop_of data "width")) (store w)).
Proof.
  intros Hq. destruct (nullish data) eqn:Hn.
  - rewrite dispatch_tag. unfold dispatch_case, bind, lift.
    destruct data; try discriminate Hn; reflexivity.
  - assert (forall k, get_prop data k = Ret (prop_of data k)) as Hg
      by (intros k; destruct data; try discriminate Hn; reflexivity).
    set (w1 := with_store (set_app (set_height (prop_of data "height")))
                 (with_store (set_app (set_width (prop_of data "width")))
                    (log_event (EvDebug true (T APP_RESIZE) data) w))).
    destruct (update_quiet_returns host (dispatch host (S (S fuel))) fuel w1 Hq)
      as (w' & Hu & _).
    pose proof (update_quiet_frame host (dispatch host (S (S fuel))) (S (S fuel))
                  w1 (Hq _)) as (Hst & _).
    rewrite Hu in Hst. cbn [snd] in Hst.
    exists w'. split; [| exact Hst].
    rewrite dispatch_tag. unfold dispatch_case.
    unfold bind at 1, lift at 1. rewrite Hg.
    unfold bind at 1, modify_store at 1, modify at 1.
    unfold bind at 1, lift at 1. rewrite Hg.
    unfold bind at 1, modify_store at 1, modify at 1. exact Hu.
Qed.

(** [LOCATION_CHANGED] on the server and in the browser. *)
Lemma location_changed_server (host : Host) (fuel : nat) (data : JsVal) (w : World) :
  config_isBrowser host = false ->
  dispatch host (S fuel) (T LOCATION_CHANGED) data w
  = store_update host fuel
      (with_store (set_fatalError VNull)
         (with_store (set_location data)
            (log_event (EvDebug false (T LOCATION_CHANGED) data) w))).
Proof.
  intros Hb. rewrite dispatch_tag. unfold dispatch_case. rewrite Hb.
  reflexivity.
Qed.

Lemma location_changed_browser (host : Host) (fuel : nat) (data : JsVal) (w : World) :
  config_isBrowser host = true ->
  window w <> None -> nullish data = false ->
  dispatch host (S fuel) (T LOCATION_CHANGED) data w
  = store_update host fuel
      (log_event (EvGa (prop_of data "url"))
         (with_store (set_fatalError VNull)
            (with_store (set_location data)
               (log_event (EvDebug false (T LOCATION_CHANGED) data) w)))).
Proof.
  intros Hb Hw Hn. rewrite dispatch_tag. unfold dispatch_case. rewrite Hb.
  unfold bind at 1, modify_store at 1, modify at 1.
  unfold bind at 1, modify_store at 1, modify at 1.
  unfold bind at 1. unfold bind at 1, get_window at 1.
  cbn [window with_store log_event].
  destruct (window w) as [win |]; [| congruence].
  unfold bind at 1, read at 1. cbn [store with_store set_fatalError set_location location].
  unfold bind at 1, lift at 1.
  assert (get_prop data "url" = Ret (prop_of data "url")) as ->
    by (destruct data; try discriminate Hn; reflexivity).
  reflexivity.
Qed.

(** X18.  [LOCATION_CHANGED] replaces [store.location] by its payload and
    sets [store.fatalError] to [null], leaves the rest of the store and the
    outstanding calls alone, and sends one page view exactly if
    [config.isBrowser]. *)
Theorem location_changed_replaces_location (host : Host) (fuel : nat)
    (data : JsVal) (w : World) :
  (forall st, quiet (render host st) = true) ->
  (config_isBrowser host = true -> window w <> None /\ nullish data = false) ->
  exists w',
    dispatch host (S (S (S fuel))) (T LOCATION_CHANGED) data w = (Ret tt, w') /\
    store w' = set_fatalError VNull (set_location data (store w)) /\
    inflight w' = inflight w /\
    count_events is_pageview w'
      = ((if config_isBrowser host then 1 else 0) + count_events is_pageview w)%nat.
Proof.
  intros Hq Hb.
  destruct (config_isBrowser host) eqn:E.
  - destruct (Hb eq_refl) as [Hw Hn].
    rewrite (location_changed_browser _ _ _ _ E Hw Hn).
    match goal with |- context [store_update host _ ?x] => set (w1 := x) end.
    destruct (update_quiet_returns host (dispatch host (S (S fuel))) fuel w1 Hq)
      as (w' & Hu & _).
    pose proof (update_quiet_frame host (dispatch host (S (S fuel))) (S (S fuel))
                  w1 (Hq _)) as (Hst & Hi & _).
    pose proof (update_quiet_trace host (dispatch host (S (S fuel))) (S (S fuel))
                  is_pageview w1 eq_refl eq_refl eq_refl eq_refl (Hq _)) as Ht.
    unfold store_update. rewrite Hu in *. cbn [snd] in *.
    exists w'. repeat split; [exact Hst | exact Hi | rewrite Ht; reflexivity].
  - rewrite (location_changed_server _ _ _ _ E).
    match goal with |- context [store_update host _ ?x] => set (w1 := x) end.
    destruct (update_quiet_returns host (dispatch host (S (S fuel))) fuel w1 Hq)
      as (w' & Hu & _).
    pose proof (update_quiet_frame host (dispatch host (S (S fuel))) (S (S fuel))
                  w1 (Hq _)) as (Hst & Hi & _).
    pose proof (update_quiet_trace host (dispatch host (S (S fuel))) (S (S fuel))
                  is_pageview w1 eq_refl eq_refl eq_refl eq_refl (Hq _)) as Ht.
    unfold store_update. rewrite Hu in *. cbn [snd] in *.
    exists w'. repeat split; [exact Hst | exact Hi | rewrite Ht; reflexivity].
Qed.

(** ** The handler, end to end *)

(** X19.  A request whose page starts no fetch: the routing object reports
    the location during [LOCATION_REPLACE] (the URL of the request differs
    from the [null] of a fresh store), the store takes it, and the handler
    sends its one response before it returns, 404 if the reported name is
    [not-found] and 200 otherwise. *)
Theorem fetchless_page_is_answered_at_once (host : Host) (fuel : nat)
    (url : string) (l name : JsVal) :
  config_isBrowser host = false ->
  (forall st, quiet (render host st) = true) ->
  loc_replace host (VStr url) = Some l ->
  get_prop l "name" = Ret name ->
  exists w',
    router_get host (S (S (S (S fuel)))) (VStr url)
      = (Ret tt,
         log_event
           (EvRespond (if strict_eq name (VStr "not-found") then 404 else 200)
              "index" VNull) w') /\
    store w' = set_fatalError VNull (set_location l initial_store) /\
    count_events is_respond w' = 0%nat /\
    inflight w' = [].
Proof.
  intros Hb Hq Hl Hn.
  set (rh := router_host host).
  assert (forall st, quiet (render rh st) = true) as Hq' by exact Hq.
  set (w0 := log_event (EvLocReplace (VStr url))
               (log_event (EvDebug false (T LOCATION_REPLACE) (VStr url))
                  (createStore None))).
  set (w1 := with_store (set_fatalError VNull)
               (with_store (set_location l)
                  (log_event (EvDebug false (T LOCATION_CHANGED) l) w0))).
  destruct (update_quiet_returns rh (dispatch rh (S (S fuel))) fuel w1 Hq')
    as (w' & Hu & _ & Hidle & _).
  pose proof (update_quiet_frame rh (dispatch rh (S (S fuel))) (S (S fuel))
                w1 (Hq' _)) as (Hst & Hi & _).
  pose proof (update_quiet_trace rh (dispatch rh (S (S fuel))) (S (S fuel))
                is_respond w1 eq_refl eq_refl eq_refl eq_refl (Hq' _)) as Ht.
  rewrite Hu in *. cbn [snd] in *.
  assert (dispatch rh (S (S (S (S fuel)))) (T LOCATION_REPLACE) (VStr url)
            (createStore None) = (Ret tt, w')) as Hrun.
  { rewrite dispatch_tag. unfold dispatch_case.
    unfold bind at 1, read at 1. unfold bind at 1, lift at 1.
    cbn [get_prop location store log_event createStore initial_store assoc
         String.eqb Ascii.eqb Bool.eqb default strict_eq negb].
    unfold call_loc_replace. unfold bind at 1, emit at 1, modify at 1.
    change (loc_replace rh (VStr url)) with (loc_replace host (VStr url)).
    rewrite Hl. cbn [notify_location].
    match goal with |- context [negb ?g] => change (negb g) with true end.
    cbv beta iota.
    change (strict_eq (T LOCATION_REPLACE) (T APP_RESIZE)) with false.
    rewrite (location_changed_server rh _ _ _ Hb). exact Hu. }
  exists w'. split.
  - unfold router_get. fold rh. unfold bind at 1. rewrite Hrun.
    unfold bind at 1, read at 1. cbv beta. rewrite Hst.
    change (fetchCount (app (store w1)) =? 0) with true. cbv iota.
    unfold done, bind, read, lift. rewrite Hst.
    change (location (store w1)) with l. rewrite Hn.
    change (title (app (store w1))) with VNull.
    reflexivity.
  - split; [exact Hst |]. split; [rewrite Ht; reflexivity | exact Hi].
Qed.

(** ** The properties above on concrete actions *)

Lemma sample_render_quiet (st : Store) : quiet (render sample_host st) = true.
Proof. reflexivity. Qed.



Lemma done_without_payload_throws_witness :
  is_done_tag API_DOC_DONE = true /\ nullish VUndefined = true /\
  exists w',
    dispatch sample_host 1 (T API_DOC_DONE) VUndefined fetching_world
      = (Throw TypeError, w') /\
    store w' = add_fetchCount (-1) (store fetching_world).
Proof.
  destruct (done_without_payload_throws sample_host 0 API_DOC_DONE VUndefined
              fetching_world eq_refl eq_refl sample_observer_quiet)
    as (w' & Hrun & Hs & _).
  split; [reflexivity |]. split; [reflexivity |].
  exists w'. split; [exact Hrun | exact Hs].
Defined.

Lemma list_result_must_be_array_witness :
  get_prop got_no_list "snippets" = Ret VUndefined /\
  (forall items, VUndefined <> VArr items) /\
  exists w',
    dispatch sample_host 1 (T API_SNIPPET_ALL_DONE) got_no_list fetching_world
      = (Throw TypeError, w') /\
    store w' = add_fetchCount (-1) (store fetching_world).
Proof.
  assert (H : forall items, VUndefined <> VArr items) by discriminate.
  destruct (list_result_must_be_array sample_host 0 got_no_list VNull VUndefined
              fetching_world eq_refl eq_refl eq_refl H sample_observer_quiet)
    as (w' & Hrun & Hs & _).
  split; [reflexivity |]. split; [exact H |].
  exists w'. split; [exact Hrun | exact Hs].
Defined.


Lemma title_carries_site_name_witness :
  (forall st, quiet (render sample_host st) = true) /\
  exists w',
    dispatch sample_host 3 (T APP_TITLE) (VStr "Top") home_world = (Ret tt, w') /\
    title (app (store w')) = VStr "Top – BitMidi".
Proof.
  destruct (title_carries_site_name sample_host 0 (VStr "Top") home_world
              sample_render_quiet) as (w' & page & Hrun & Hs & _ & Hp).
  split; [exact sample_render_quiet |].
  exists w'. split; [exact Hrun |].
  rewrite Hs. rewrite (Hp "Top" eq_refl ltac:(discriminate)). reflexivity.
Defined.

Lemma resize_reads_width_and_height_witness :
  (forall st, quiet (render sample_host st) = true) /\
  dispatch sample_host 1 (T APP_RESIZE) VNull home_world
    = (Throw TypeError, log_event (EvDebug true (T APP_RESIZE) VNull) home_world).
Proof.
  split; [exact sample_render_quiet |].
  exact (resize_reads_width_and_height sample_host 0 VNull home_world
           sample_render_quiet).
Defined.

Lemma location_changed_replaces_location_witness :
  (forall st, quiet (render sample_host st) = true) /\
  (config_isBrowser sample_host = true ->
   window home_world <> None /\ nullish (VObj [("name", VStr "about"); ("url", VStr "/about")]) = false) /\
  exists w',
    dispatch sample_host 3 (T LOCATION_CHANGED)
      (VObj [("name", VStr "about"); ("url", VStr "/about")]) home_world
      = (Ret tt, w') /\
    location (store w') = VObj [("name", VStr "about"); ("url", VStr "/about")] /\
    count_events is_pageview w' = S (count_events is_pageview home_world).
Proof.
  assert (H : config_isBrowser sample_host = true ->
              window home_world <> None /\
              nullish (VObj [("name", VStr "about"); ("url", VStr "/about")]) = false).
  { intros _. split; [vm_compute; discriminate | reflexivity]. }
  destruct (location_changed_replaces_location sample_host 0
              (VObj [("name", VStr "about"); ("url", VStr "/about")]) home_world
              sample_render_quiet H) as (w' & Hrun & Hs & _ & Hc).
  split; [exact sample_render_quiet |]. split; [exact H |].
  exists w'. split; [exact Hrun |]. split; [now rewrite Hs | exact Hc].
Defined.

Lemma fetchless_page_is_answered_at_once_witness :
  config_isBrowser sample_server = false /\
  loc_replace sample_server (VStr "/nope")
    = Some (VObj [("name", VStr "not-found"); ("params", VObj []);
                  ("url", VStr "/nope"); ("query", VObj []);
                  ("pathname", VStr "/nope")]) /\
  exists w',
    router_get sample_server 4 (VStr "/nope")
      = (Ret tt, log_event (EvRespond 404 "index" VNull) w').
Proof.
  destruct (fetchless_page_is_answered_at_once sample_server 0 "/nope"
              (VObj [("name", VStr "not-found"); ("params", VObj []);
                     ("url", VStr "/nope"); ("query", VObj []);
                     ("pathname", VStr "/nope")])
              (VStr "not-found") eq_refl (fun _ => eq_refl) eq_refl eq_refl)
    as (w' & Hrun & _).
  split; [reflexivity |]. split; [reflexivity |].
  exists w'. exact Hrun.
Defined.
